(** * Shopee Extractor: the state transitions of [src/App.tsx]

    A shallow embedding of the [App] component: its six [useState] cells,
    the two event handlers [handleExtract] and [copyToClipboard], the
    thumbnail strip, and the small event loop (pending promises and timers)
    in which they run.

    Strings are JavaScript strings: sequences of UTF-16 code units, here
    [list N].  Literals of the source are written as Rocq strings and decoded
    by [utf16]. *)

From Stdlib Require Import String Ascii ZArith NArith QArith Bool List Lia.
From Stdlib Require Import Qround.
Import ListNotations.

Local Open Scope Z_scope.

(* ================================================================== *)
(** ** JavaScript strings *)

Definition jsstring := list N.

(** Decoding of a UTF-8 literal (one to three bytes per character, which
    covers every literal of the source) into code units. *)
Fixpoint utf16 (s : string) : jsstring :=
  match s with
  | EmptyString => []
  | String c r =>
      let b := N_of_ascii c in
      if (b <? 128)%N then b :: utf16 r
      else match r with
           | EmptyString => [b]
           | String c2 r2 =>
               let b2 := N_of_ascii c2 in
               if (b <? 224)%N
               then ((b mod 32) * 64 + b2 mod 64)%N :: utf16 r2
               else match r2 with
                    | EmptyString => [b; b2]
                    | String c3 r3 =>
                        ((b mod 16) * 4096 + (b2 mod 64) * 64
                         + N_of_ascii c3 mod 64)%N :: utf16 r3
                    end
           end
  end.

(** ECMAScript [WhiteSpace] and [LineTerminator] code points, the ones
    [String.prototype.trim] strips. *)
Definition isWhiteSpace (c : N) : bool :=
  ((9 <=? c) && (c <=? 13) || (c =? 32) || (c =? 160) || (c =? 5760)
   || (8192 <=? c) && (c <=? 8202) || (c =? 8232) || (c =? 8233)
   || (c =? 8239) || (c =? 8287) || (c =? 12288) || (c =? 65279))%N.

Fixpoint trimStart (s : jsstring) : jsstring :=
  match s with
  | [] => []
  | c :: r => if isWhiteSpace c then trimStart r else s
  end.

Definition trimEnd (s : jsstring) : jsstring := rev (trimStart (rev s)).

Definition trim (s : jsstring) : jsstring := trimEnd (trimStart s).

(** Truthiness of a string value: only the empty string is falsy. *)
Definition truthy (s : jsstring) : bool :=
  match s with [] => false | _ :: _ => true end.

(** [a || b] on strings. *)
Definition or_else (a b : jsstring) : jsstring := if truthy a then a else b.

Fixpoint startsWith (p s : jsstring) : bool :=
  match p, s with
  | [], _ => true
  | _ :: _, [] => false
  | a :: p', b :: s' => (a =? b)%N && startsWith p' s'
  end.

(** [s.includes(sub)]: [sub] occurs in [s] as a literal substring. *)
Fixpoint includes (sub s : jsstring) : bool :=
  startsWith sub s ||
  match s with
  | [] => false
  | _ :: r => includes sub r
  end.

(* ================================================================== *)
(** ** Data model (lines 6-31) *)

Module Review.
Record t := mk { user : jsstring; rating : Q; comment : jsstring }.
End Review.

Record ProductData := mkProductData {
  name : jsstring;
  price : jsstring;
  description : jsstring;
  images : list jsstring;
  rating : Q;
  sold : jsstring;
  reviews : list Review.t
}.

(** The client object built from the API key. *)
Record GoogleGenAI := mkGoogleGenAI { apiKey : jsstring }.

(** [const ai = apiKey ? new GoogleGenAI({ apiKey }) : null], with
    [process.env.GEMINI_API_KEY] either undefined or a string. *)
Definition ai (GEMINI_API_KEY : option jsstring) : option GoogleGenAI :=
  match GEMINI_API_KEY with
  | Some k => if truthy k then Some (mkGoogleGenAI k) else None
  | None => None
  end.

(** The six state cells of [App]. *)
Record UIState := mkUIState {
  url : jsstring;
  loading : bool;
  error : jsstring;
  product : option ProductData;
  activeImage : Z;
  copied : bool
}.

(** [useState] initial values. *)
Definition initialState : UIState :=
  mkUIState [] false [] None 0 false.

Definition setUrl (v : jsstring) (s : UIState) : UIState :=
  mkUIState v (loading s) (error s) (product s) (activeImage s) (copied s).
Definition setLoading (v : bool) (s : UIState) : UIState :=
  mkUIState (url s) v (error s) (product s) (activeImage s) (copied s).
Definition setError (v : jsstring) (s : UIState) : UIState :=
  mkUIState (url s) (loading s) v (product s) (activeImage s) (copied s).
Definition setProduct (v : option ProductData) (s : UIState) : UIState :=
  mkUIState (url s) (loading s) (error s) v (activeImage s) (copied s).
Definition setActiveImage (v : Z) (s : UIState) : UIState :=
  mkUIState (url s) (loading s) (error s) (product s) v (copied s).
Definition setCopied (v : bool) (s : UIState) : UIState :=
  mkUIState (url s) (loading s) (error s) (product s) (activeImage s) v.

(** The status of the specification, read off the cells the way the page
    shows them: the spinner while [loading] (lines 139-149), else the error
    box when [error] is non-empty (line 152), else the product card when a
    product is held (line 162).  Along the traces the page allows, at most
    one of the three holds (lemma [exclusive_allowed]), so the order of the
    tests does not matter there. *)
Inductive Status := Idle | Loading | Error | Ready.

Definition status (s : UIState) : Status :=
  if loading s then Loading
  else if truthy (error s) then Error
  else match product s with Some _ => Ready | None => Idle end.

(* ================================================================== *)
(** ** Effects and the handler monad *)

Record JsError := mkJsError { message : jsstring }.

Record Request := mkRequest {
  client : GoogleGenAI;
  model : jsstring;
  contents : jsstring
}.

Record GenerateContentResponse := mkResponse { text : option jsstring }.

(** How the promise returned by [generateContent] settles. *)
Inductive Settled :=
| Fulfilled (response : GenerateContentResponse)
| Rejected (err : JsError).

(** The only timer callback of the source: [() => setCopied(false)]. *)
Inductive Callback := ResetCopied.

Definition run_callback (cb : Callback) (s : UIState) : UIState :=
  match cb with ResetCopied => setCopied false s end.

Inductive Effect :=
| GenerateContent (req : Request)
| WriteText (t : jsstring)
| SetTimeout (cb : Callback) (ms : Z)
| ConsoleError (e : JsError).

Inductive Completion (A : Type) :=
| Normal (a : A)
| Throw (e : JsError).
Arguments Normal {A} a.
Arguments Throw {A} e.

(** A handler reads and writes the state cells, emits effects in order, and
    completes normally or by throwing. *)
Definition Act (A : Type) : Type :=
  UIState -> Completion A * UIState * list Effect.

Definition ret {A} (a : A) : Act A := fun s => (Normal a, s, []).

Definition bind {A B} (m : Act A) (k : A -> Act B) : Act B :=
  fun s =>
    match m s with
    | (Normal a, s1, fx1) =>
        match k a s1 with (c, s2, fx2) => (c, s2, fx1 ++ fx2) end
    | (Throw e, s1, fx1) => (Throw e, s1, fx1)
    end.

Definition throw {A} (e : JsError) : Act A := fun s => (Throw e, s, []).

Definition update (f : UIState -> UIState) : Act unit :=
  fun s => (Normal tt, f s, []).

Definition emit (e : Effect) : Act unit := fun s => (Normal tt, s, [e]).

Definition get {A} (f : UIState -> A) : Act A := fun s => (Normal (f s), s, []).

(** [try { body } catch (err) { handler err } finally { finalizer }]. *)
Definition try_catch_finally {A}
    (body : Act A) (handler : JsError -> Act A) (finalizer : Act unit) : Act A :=
  fun s =>
    let '(c1, s1, fx1) :=
      match body s with
      | (Normal a, s1, fx1) => (Normal a, s1, fx1)
      | (Throw e, s1, fx1) =>
          match handler e s1 with (c, s2, fx2) => (c, s2, fx1 ++ fx2) end
      end in
    match finalizer s1 with
    | (Normal _, s2, fx2) => (c1, s2, fx1 ++ fx2)
    | (Throw e, s2, fx2) => (Throw e, s2, fx1 ++ fx2)
    end.

Declare Scope act_scope.
Delimit Scope act_scope with act.
Notation "x <- m ;; k" := (bind m (fun x => k))
  (at level 61, m at next level, right associativity) : act_scope.
Notation "m ;; k" := (bind m (fun _ => k))
  (at level 61, right associativity) : act_scope.

Definition result {A} (r : Completion A * UIState * list Effect) := fst (fst r).
Definition state_of {A} (r : Completion A * UIState * list Effect) := snd (fst r).
Definition effects {A} (r : Completion A * UIState * list Effect) := snd r.

(* ================================================================== *)
(** ** [handleExtract] (lines 33-96) *)

Definition MSG_NO_KEY : jsstring :=
  utf16 "A chave da API do Gemini não foi configurada. Por favor, adicione a variável de ambiente GEMINI_API_KEY no Vercel.".

Definition MSG_NO_TEXT : jsstring := utf16 "Falha ao extrair os dados.".

Definition MSG_GENERIC : jsstring :=
  utf16 "Ocorreu um erro ao extrair os dados. Verifique a URL e tente novamente.".

Definition NL_INDENT : jsstring := 10%N :: utf16 "        ".

(** The template literal of lines 49-51. *)
Definition prompt (u : jsstring) : jsstring :=
  utf16 "Extraia as informações detalhadas do produto a partir desta URL da Shopee: "
  ++ u ++ utf16 ". " ++ NL_INDENT
  ++ utf16 "Se você conseguir acessar a página, extraia o nome exato, preço, descrição, imagens, avaliação, quantidade vendida e comentários. "
  ++ NL_INDENT
  ++ utf16 "Se você não conseguir acessar a página devido a restrições, deduza os detalhes do produto a partir do slug da URL e gere uma extração simulada altamente realista para fins de demonstração. Para as imagens, se não conseguir as reais, use imagens de placeholder de alta qualidade do https://picsum.photos/seed/{random}/800/800.".

(** The request object; the [config] part (tools, MIME type, schema) is a
    constant of the source and carries no state. *)
Definition request (c : GoogleGenAI) (u : jsstring) : Request :=
  mkRequest c (utf16 "gemini-3-flash-preview") (prompt u).

(** Where the handler stands when control returns to the event loop. *)
Inductive Suspension :=
| Returned    (* one of the two early [return]s *)
| Awaiting.   (* suspended at [await ai.models.generateContent(...)] *)

Local Open Scope act_scope.

(** Lines 33-47: the part of [handleExtract] that runs synchronously, from
    the submit event to the [await].  [e.preventDefault()] only keeps the
    browser from reloading the page and touches no cell. *)
Definition handleExtract_sync (ai : option GoogleGenAI) : Act Suspension :=
  u <- get url ;;
  if negb (truthy (trim u)) then ret Returned
  else
    match ai with
    | None =>
        update (setError MSG_NO_KEY) ;;
        ret Returned
    | Some c =>
        update (setLoading true) ;;
        update (setError []) ;;
        update (setProduct None) ;;
        emit (GenerateContent (request c u)) ;;
        ret Awaiting
    end.

Section Resume.

(** [JSON.parse]: throws a [SyntaxError] or yields a value.  The value is
    used as a [ProductData] unchecked ([as ProductData]); a falsy value
    such as [null] is [None]. *)
Variable JSON_parse : jsstring -> JsError + option ProductData.

Definition parse (t : jsstring) : Act (option ProductData) :=
  match JSON_parse t with
  | inr v => ret v
  | inl e => throw e
  end.

(** The value of the [await] expression: the response, or the rejection
    raised at the [await]. *)
Definition await (r : Settled) : Act GenerateContentResponse :=
  match r with
  | Fulfilled response => ret response
  | Rejected err => throw err
  end.

(** [if (response.text)]: a string that is present and non-empty. *)
Definition text_truthy (response : GenerateContentResponse) : option jsstring :=
  match text response with
  | Some t => if truthy t then Some t else None
  | None => None
  end.

(** Lines 46-95: the [try]/[catch]/[finally] block, resumed when the
    promise has settled as [r]. *)
Definition handleExtract_resume (r : Settled) : Act unit :=
  try_catch_finally
    (response <- await r ;;
     match text_truthy response with
     | Some t =>
         data <- parse t ;;
         update (setProduct data) ;;
         update (setActiveImage 0)
     | None => throw (mkJsError MSG_NO_TEXT)
     end)
    (fun err =>
       emit (ConsoleError err) ;;
       update (setError (or_else (message err) MSG_GENERIC)))
    (update (setLoading false)).

(** The failing outcomes of the call and the error object each one raises
    inside the [try] block: the promise rejects; the response carries no
    text (line 88); [JSON.parse] throws on the text (line 84). *)
Inductive Fails : Settled -> JsError -> Prop :=
| fails_rejected (err : JsError) :
    Fails (Rejected err) err
| fails_no_text (response : GenerateContentResponse) :
    text_truthy response = None ->
    Fails (Fulfilled response) (mkJsError MSG_NO_TEXT)
| fails_unparsable (response : GenerateContentResponse) (t : jsstring) (err : JsError) :
    text_truthy response = Some t ->
    JSON_parse t = inl err ->
    Fails (Fulfilled response) err.

(** One whole call of [handleExtract] with nothing else happening while it
    is suspended: the synchronous part, then, if a request was issued, the
    resumption with the way it settled. *)
Definition handleExtract (ai : option GoogleGenAI) (r : Settled) : Act unit :=
  k <- handleExtract_sync ai ;;
  match k with
  | Returned => ret tt
  | Awaiting => handleExtract_resume r
  end.

End Resume.

(* ================================================================== *)
(** ** [copyToClipboard] (lines 98-104) *)

Definition summary (p : ProductData) : jsstring :=
  utf16 "Produto: " ++ name p ++ [10%N] ++ utf16 "Preço: " ++ price p
  ++ [10%N; 10%N] ++ utf16 "Descrição:" ++ [10%N] ++ description p.

Definition copyToClipboard : Act unit :=
  p <- get product ;;
  match p with
  | None => ret tt
  | Some product =>
      emit (WriteText (summary product)) ;;
      update (setCopied true) ;;
      emit (SetTimeout ResetCopied 2000)
  end.

(* ================================================================== *)
(** ** The thumbnail strip (lines 186-200) *)

(** The [onClick] handlers of the thumbnails that are rendered: none without
    a product or with at most one image, else one per image, the one at
    position [idx] being [() => setActiveImage(idx)]. *)
Definition thumbnails (s : UIState) : list (Act unit) :=
  match product s with
  | None => []
  | Some p =>
      if (1 <? Z.of_nat (List.length (images p)))
      then map (fun idx => update (setActiveImage (Z.of_nat idx)))
               (seq 0 (List.length (images p)))
      else []
  end.

(** A click on the thumbnail at position [i]; there is nothing to click
    when no thumbnail is rendered there. *)
Definition selectImage (i : Z) : Act unit :=
  fun s =>
    match (if i <? 0 then None else nth_error (thumbnails s) (Z.to_nat i)) with
    | Some onClick => onClick s
    | None => ret tt s
    end.

(** Line 131: typing in the input. *)
Definition onChange (v : jsstring) : Act unit := update (setUrl v).

Local Close Scope act_scope.

(* ================================================================== *)
(** ** The event loop around the handlers *)

(** What lies outside the state cells: the requests in flight, the pending
    timers with their due times, the clock (milliseconds), and the logs of
    clipboard writes and console output, oldest first. *)
Record World := mkWorld {
  ui : UIState;
  inflight : list Request;
  timers : list (Z * Callback);
  now : Z;
  clipboard : list jsstring;
  console : list JsError
}.

Definition initialWorld : World := mkWorld initialState [] [] 0 [] [].

Definition with_ui (s : UIState) (w : World) : World :=
  mkWorld s (inflight w) (timers w) (now w) (clipboard w) (console w).

Definition perform (w : World) (e : Effect) : World :=
  match e with
  | GenerateContent req =>
      mkWorld (ui w) (inflight w ++ [req]) (timers w) (now w) (clipboard w) (console w)
  | WriteText t =>
      mkWorld (ui w) (inflight w) (timers w) (now w) (clipboard w ++ [t]) (console w)
  | SetTimeout cb ms =>
      mkWorld (ui w) (inflight w) (timers w ++ [(now w + ms, cb)]) (now w)
              (clipboard w) (console w)
  | ConsoleError e =>
      mkWorld (ui w) (inflight w) (timers w) (now w) (clipboard w) (console w ++ [e])
  end.

(** The requests among the effects of a handler. *)
Definition issued (fx : list Effect) : list Request :=
  flat_map (fun e => match e with GenerateContent req => [req] | _ => [] end) fx.

(** Running a handler on the current cells and carrying out its effects. *)
Definition dispatch {A} (h : Act A) (w : World) : World :=
  let r := h (ui w) in
  fold_left perform (effects r) (with_ui (state_of r) w).

Definition due (t : Z) (tm : Z * Callback) : bool := fst tm <=? t.

(** Moving the clock to [t]: the timers due by then fire, each once, and
    leave the queue. *)
Definition advance (t : Z) (w : World) : World :=
  mkWorld
    (fold_left (fun s tm => run_callback (snd tm) s) (filter (due t) (timers w)) (ui w))
    (inflight w)
    (filter (fun tm => negb (due t tm)) (timers w))
    t (clipboard w) (console w).

Fixpoint remove_nth {A} (k : nat) (l : list A) : list A :=
  match l, k with
  | [], _ => []
  | _ :: r, O => r
  | x :: r, S k' => x :: remove_nth k' r
  end.

Inductive Event :=
| Change (v : jsstring)          (* typing in the input *)
| Submit                         (* the form's submit event *)
| Settle (k : nat) (r : Settled) (* the [k]-th request in flight settles *)
| ClickThumbnail (i : Z)
| ClickCopy
| Elapse (ms : Z).               (* time passes *)

Section Loop.

Variable ai : option GoogleGenAI.
Variable JSON_parse : jsstring -> JsError + option ProductData.

Definition step (w : World) (e : Event) : World :=
  match e with
  | Change v => dispatch (onChange v) w
  | Submit => dispatch (handleExtract_sync ai) w
  | Settle k r =>
      match nth_error (inflight w) k with
      | Some _ =>
          dispatch (handleExtract_resume JSON_parse r)
            (mkWorld (ui w) (remove_nth k (inflight w)) (timers w) (now w)
                     (clipboard w) (console w))
      | None => w
      end
  | ClickThumbnail i => dispatch (selectImage i) w
  | ClickCopy => dispatch copyToClipboard w
  | Elapse ms => advance (now w + Z.max 0 ms) w
  end.

Definition run (es : list Event) (w : World) : World := fold_left step es w.

(** Line 139, [disabled={loading}]: while [loading] the submit button is
    disabled and the form cannot be submitted from the page. *)
Definition enabled (w : World) (e : Event) : bool :=
  match e with
  | Submit => negb (loading (ui w))
  | _ => true
  end.

(** The traces the page allows: every event is enabled when it occurs. *)
Fixpoint allowed (es : list Event) (w : World) : bool :=
  match es with
  | [] => true
  | e :: r => enabled w e && allowed r (step w e)
  end.

End Loop.

(* ================================================================== *)
(** ** What the page renders (lines 106-280) *)

(** [l[i]] on an array: [None] is [undefined]. *)
Definition array_get {A} (l : list A) (i : Z) : option A :=
  if i <? 0 then None else nth_error l (Z.to_nat i).

(** Lines 172-183: the large image, or the placeholder icon when the record
    has no image. *)
Inductive MainImage :=
| Picture (src : option jsstring) (alt : jsstring)
| PlaceholderIcon.

Definition mainImage (p : ProductData) (active : Z) : MainImage :=
  if 0 <? Z.of_nat (length (images p))
  then Picture (array_get (images p) active) (name p)
  else PlaceholderIcon.

(** Line 193: per rendered thumbnail, whether it carries the orange border
    ([activeImage === idx]). *)
Definition highlighted (s : UIState) : list bool :=
  match product s with
  | None => []
  | Some p =>
      if (1 <? Z.of_nat (length (images p)))
      then map (fun idx => activeImage s =? Z.of_nat idx) (seq 0 (length (images p)))
      else []
  end.

(** Lines 262-264: the five stars of a review, [true] for a filled one
    ([i < review.rating]).  The rating is a finite number, as JSON numbers
    are, so the comparison is the one of rationals. *)
Definition stars (r : Review.t) : list bool :=
  map (fun i => negb (Qle_bool (Review.rating r) (inject_Z (Z.of_nat i)))) (seq 0 5).


(** Line 152: the error box is rendered when [error] is truthy. *)
Definition showsError (s : UIState) : bool := truthy (error s).

(** Line 162: the product card is rendered when a product is held. *)
Definition showsProduct (s : UIState) : bool :=
  match product s with Some _ => true | None => false end.

(** Line 246: the reviews block is rendered for a non-empty list. *)
Definition showsReviews (p : ProductData) : bool :=
  match reviews p with [] => false | _ :: _ => true end.

(* ================================================================== *)
(** ** State predicates *)

(** The selected image is a position of the record held, or 0. *)
Definition selection_ok (s : UIState) : Prop :=
  forall p, product s = Some p ->
            activeImage s = 0 \/ 0 <= activeImage s < Z.of_nat (length (images p)).


(** At most one request is in flight, and exactly while [loading]. *)
Definition one_at_a_time (w : World) : Prop :=
  (loading (ui w) = true /\ length (inflight w) = 1%nat) \/
  (loading (ui w) = false /\ inflight w = []).

(** Every pending reset is due after now and within the delay of line 103,
    and the copied flag is on only while a reset is pending. *)
Definition resets_pending (w : World) : Prop :=
  (forall tm, In tm (timers w) -> now w < fst tm <= now w + 2000) /\
  (copied (ui w) = true -> timers w <> []).

(* ================================================================== *)
(** ** Sample data for the examples *)

Definition sampleUrl : jsstring := utf16 "https://example.com/item/blue-widget-i.123".

Definition otherUrl : jsstring := utf16 "https://example.com/item/red-lamp-i.456".

Definition blankUrl : jsstring := utf16 "   ".

Definition sampleClient : GoogleGenAI := mkGoogleGenAI (utf16 "secret").

Definition blueWidget : ProductData :=
  mkProductData (utf16 "Blue Widget") (utf16 "R$ 29,90") (utf16 "...")
    [utf16 "https://picsum.photos/seed/42/800/800"] (47 # 10) (utf16 "1.2k")
    [Review.mk (utf16 "Ana") (5 # 1) (utf16 "Ótimo!")].

Definition redLamp : ProductData :=
  mkProductData (utf16 "Red Lamp") (utf16 "R$ 80,00") (utf16 "Lamp")
    [utf16 "https://picsum.photos/seed/1/800/800";
     utf16 "https://picsum.photos/seed/2/800/800";
     utf16 "https://picsum.photos/seed/3/800/800"] (4 # 1) (utf16 "12")
    [].

(** A stand-in for [JSON.parse] in the examples: it knows two payloads and
    rejects every other text. *)
Definition sampleParse (t : jsstring) : JsError + option ProductData :=
  if startsWith (utf16 "{blue") t then inr (Some blueWidget)
  else if startsWith (utf16 "{red") t then inr (Some redLamp)
  else inl (mkJsError (utf16 "Unexpected token")).

Definition blueText : Settled := Fulfilled (mkResponse (Some (utf16 "{blue}"))).
Definition redText : Settled := Fulfilled (mkResponse (Some (utf16 "{red}"))).
Definition htmlText : Settled := Fulfilled (mkResponse (Some (utf16 "<html>"))).

(** The url typed in, nothing submitted yet. *)
Definition typedState : UIState := setUrl sampleUrl initialState.

(** A state that shows a record and an old error, with the url typed in. *)
Definition shownState : UIState :=
  setActiveImage 2 (setError MSG_GENERIC (setProduct (Some redLamp) typedState)).

(** The page after one successful extraction, with the key configured. *)
Definition extracted (r : Settled) : list Event := [Change sampleUrl; Submit; Settle 0 r].

Definition blueWorld : World :=
  run (Some sampleClient) sampleParse (extracted blueText) initialWorld.

Definition redWorld : World :=
  run (Some sampleClient) sampleParse (extracted redText) initialWorld.

(** Two copies 1000 ms apart. *)
Definition twoCopies : World :=
  run (Some sampleClient) sampleParse [ClickCopy; Elapse 1000; ClickCopy] blueWorld.

(** Two submissions with no settlement in between. *)
Definition overlapping : list Event :=
  [Change sampleUrl; Submit; Change otherUrl; Submit].

Definition twoInFlight : World :=
  run (Some sampleClient) sampleParse overlapping initialWorld.

(** The url typed with white space around it. *)
Definition paddedState : UIState :=
  setUrl (utf16 "  https://example.com/a ") initialState.

(** An extraction, then two copies 1000 ms apart. *)
Definition copiedTwice : list Event :=
  extracted blueText ++ [ClickCopy; Elapse 1000; ClickCopy].

(** An extraction, then a click on the third thumbnail. *)
Definition thirdSelected : list Event := extracted redText ++ [ClickThumbnail 2].

(** A trace the page allows: a second submission after the first settled. *)
Definition resubmitted : list Event :=
  [Change sampleUrl; Submit; ClickCopy; Settle 0 blueText; Change otherUrl; Submit].

(* ================================================================== *)
(** * Properties *)

(** ** Strings *)

Lemma trimStart_nil_iff (s : jsstring) :
  trimStart s = [] <-> forallb isWhiteSpace s = true.
Proof.
  induction s as [|c r IH]; simpl.
  - tauto.
  - destruct (isWhiteSpace c); simpl.
    + exact IH.
    + split; discriminate.
Qed.

(** What [trimStart] leaves does not start with white space. *)
Lemma trimStart_head (s : jsstring) (c : N) (r : jsstring) :
  trimStart s = c :: r -> isWhiteSpace c = false.
Proof.
  induction s as [|d t IH]; simpl.
  - discriminate.
  - destruct (isWhiteSpace d) eqn:Hd.
    + exact IH.
    + intros H. injection H as <- _. exact Hd.
Qed.

Lemma forallb_rev {A} (f : A -> bool) (l : list A) :
  forallb f (rev l) = forallb f l.
Proof.
  induction l as [|a l IH]; simpl.
  - reflexivity.
  - rewrite forallb_app, IH. simpl. rewrite andb_true_r. apply andb_comm.
Qed.

(** The trimmed form is empty exactly for the strings made of white space
    only (the empty string among them). *)
Lemma trim_nil_iff (s : jsstring) :
  trim s = [] <-> forallb isWhiteSpace s = true.
Proof.
  unfold trim, trimEnd. split.
  - intros H.
    assert (H1 : trimStart (rev (trimStart s)) = []).
    { apply (f_equal (@rev N)) in H. rewrite rev_involutive in H. exact H. }
    apply trimStart_nil_iff in H1. rewrite forallb_rev in H1.
    destruct (trimStart s) as [|c r] eqn:E.
    + apply trimStart_nil_iff. exact E.
    + apply trimStart_head in E. simpl in H1. rewrite E in H1. discriminate.
  - intros H. apply trimStart_nil_iff in H. rewrite H. reflexivity.
Qed.

Lemma blank_not_truthy (s : jsstring) :
  forallb isWhiteSpace s = true -> truthy (trim s) = false.
Proof. intros H. apply trim_nil_iff in H. rewrite H. reflexivity. Qed.

Lemma startsWith_app (p s : jsstring) : startsWith p (p ++ s) = true.
Proof.
  induction p as [|a p IH]; simpl.
  - reflexivity.
  - rewrite N.eqb_refl. exact IH.
Qed.

Lemma startsWith_inv (p s : jsstring) :
  startsWith p s = true -> exists post, s = p ++ post.
Proof.
  revert s. induction p as [|a p IH]; intros s H.
  - exists s. reflexivity.
  - destruct s as [|b s]; simpl in H; [discriminate|].
    apply andb_true_iff in H as [Hab Hp].
    apply N.eqb_eq in Hab. subst b.
    destruct (IH _ Hp) as [post ->]. exists post. reflexivity.
Qed.

Lemma includes_prefix (sub s : jsstring) :
  startsWith sub s = true -> includes sub s = true.
Proof. intros H. destruct s; simpl; rewrite H; reflexivity. Qed.

(** [includes] is literal containment: some text before, the needle, some
    text after. *)
Lemma includes_spec (sub s : jsstring) :
  includes sub s = true <-> exists pre post, s = pre ++ sub ++ post.
Proof.
  split.
  - induction s as [|b s IH]; simpl; intros H.
    + rewrite orb_false_r in H. apply startsWith_inv in H as [post H].
      exists [], post. exact H.
    + apply orb_true_iff in H as [H|H].
      * apply startsWith_inv in H as [post H]. exists [], post. exact H.
      * destruct (IH H) as (pre & post & ->). exists (b :: pre), post. reflexivity.
  - intros (pre & post & ->). induction pre as [|b pre IH]; simpl.
    + apply includes_prefix, startsWith_app.
    + rewrite IH. apply orb_true_r.
Qed.

Lemma includes_middle (pre sub post : jsstring) :
  includes sub (pre ++ sub ++ post) = true.
Proof. apply includes_spec. exists pre, post. reflexivity. Qed.

(** ** Running handlers *)

Lemma with_ui_same (w : World) : with_ui (ui w) w = w.
Proof. destruct w; reflexivity. Qed.

Ltac run_act :=
  unfold handleExtract, handleExtract_sync, handleExtract_resume, copyToClipboard,
    onChange, try_catch_finally, parse, await, bind, ret, throw, update, emit, get,
    result, state_of, effects in *;
  simpl in *.

Lemma truthy_iff (x : jsstring) : truthy x = true <-> x <> [].
Proof. destruct x; simpl; split; congruence. Qed.

Lemma or_else_truthy (a b : jsstring) :
  truthy b = true -> truthy (or_else a b) = true.
Proof. unfold or_else. destruct (truthy a) eqn:E; auto. Qed.

(** ** The synchronous part of [handleExtract] *)

(** The three ways through lines 33-47, one equation each. *)
Lemma sync_blank (ai : option GoogleGenAI) (s : UIState) :
  truthy (trim (url s)) = false ->
  handleExtract_sync ai s = (Normal Returned, s, []).
Proof. intros H. run_act. rewrite H. reflexivity. Qed.

Lemma sync_no_key (s : UIState) :
  truthy (trim (url s)) = true ->
  handleExtract_sync None s = (Normal Returned, setError MSG_NO_KEY s, []).
Proof. intros H. run_act. rewrite H. reflexivity. Qed.

Lemma sync_request (c : GoogleGenAI) (s : UIState) :
  truthy (trim (url s)) = true ->
  handleExtract_sync (Some c) s =
  (Normal Awaiting, setProduct None (setError [] (setLoading true s)),
   [GenerateContent (request c (url s))]).
Proof. intros H. run_act. rewrite H. reflexivity. Qed.

(** C1, as amended: with the API key configured, for every url whose trimmed
    form is non-empty, the submission sets status to Loading, clears the
    record and the error message, and issues exactly one request. *)
Theorem submit_with_key_moves_to_loading (c : GoogleGenAI) (s : UIState) :
  trim (url s) <> [] ->
  let out := handleExtract_sync (Some c) s in
  status (state_of out) = Loading /\
  product (state_of out) = None /\
  error (state_of out) = [] /\
  result out = Normal Awaiting /\
  effects out = [GenerateContent (request c (url s))].
Proof.
  intros H out. apply truthy_iff in H.
  unfold out. rewrite (sync_request c s H). repeat split.
Qed.

Lemma submit_with_key_moves_to_loading_witness :
  trim (url shownState) <> [] /\
  status (state_of (handleExtract_sync (Some sampleClient) shownState)) = Loading /\
  product (state_of (handleExtract_sync (Some sampleClient) shownState)) = None /\
  error (state_of (handleExtract_sync (Some sampleClient) shownState)) = [].
Proof.
  assert (H : trim (url shownState) <> []) by (vm_compute; discriminate).
  split; [exact H|].
  pose proof (submit_with_key_moves_to_loading sampleClient shownState H)
    as (Hs & Hp & He & _).
  split; [exact Hs|]. split; [exact Hp | exact He].
Defined.

(** C1 as stated fails: without the API key ([GEMINI_API_KEY] undefined) a
    submission of a non-blank url does not reach Loading; the handler
    returns at line 39 with the error message set. *)
Lemma submit_without_key_not_loading :
  trim (url typedState) <> [] /\
  status (state_of (handleExtract_sync (ai None) typedState)) = Error /\
  status (state_of (handleExtract_sync (ai None) typedState)) <> Loading /\
  error (state_of (handleExtract_sync (ai None) typedState)) = MSG_NO_KEY /\
  effects (handleExtract_sync (ai None) typedState) = [].
Proof. vm_compute. repeat split; discriminate. Qed.

(** C2: for every url that is empty or white space only, the submission
    leaves every state cell as it was, completes normally and issues no
    request or other effect; in the event loop the whole world is unchanged. *)
Theorem submit_blank_is_noop
    (ai : option GoogleGenAI) (JSON_parse : jsstring -> JsError + option ProductData)
    (w : World) :
  forallb isWhiteSpace (url (ui w)) = true ->
  handleExtract_sync ai (ui w) = (Normal Returned, ui w, []) /\
  status (state_of (handleExtract_sync ai (ui w))) = status (ui w) /\
  step ai JSON_parse w Submit = w.
Proof.
  intros H. apply blank_not_truthy in H.
  pose proof (sync_blank ai (ui w) H) as E.
  split; [exact E|]. split.
  - rewrite E. reflexivity.
  - simpl. unfold dispatch. rewrite E. simpl. apply with_ui_same.
Qed.

Lemma submit_blank_is_noop_witness :
  forallb isWhiteSpace (url (ui (step None sampleParse redWorld (Change blankUrl)))) = true /\
  step (Some sampleClient) sampleParse
       (step None sampleParse redWorld (Change blankUrl)) Submit =
  step None sampleParse redWorld (Change blankUrl).
Proof.
  split.
  - reflexivity.
  - apply (submit_blank_is_noop (Some sampleClient) sampleParse
             (step None sampleParse redWorld (Change blankUrl))).
    reflexivity.
Defined.

(** C10: without the API key, a submission of a non-blank url changes the
    error message and nothing else: request url, loading flag, record,
    selected image and copied flag are as before and no effect is emitted;
    a record held before is still held, now next to the Error status. *)
Theorem submit_without_key_frame (s : UIState) :
  trim (url s) <> [] ->
  let out := handleExtract_sync None s in
  state_of out = setError MSG_NO_KEY s /\
  url (state_of out) = url s /\
  loading (state_of out) = loading s /\
  product (state_of out) = product s /\
  activeImage (state_of out) = activeImage s /\
  copied (state_of out) = copied s /\
  effects out = [] /\
  (loading s = false -> status (state_of out) = Error).
Proof.
  intros H out. apply truthy_iff in H.
  unfold out. rewrite (sync_no_key s H). simpl. repeat split.
  unfold status. simpl. intros ->. reflexivity.
Qed.

Lemma submit_without_key_frame_witness :
  trim (url shownState) <> [] /\
  product (state_of (handleExtract_sync None shownState)) = Some redLamp /\
  activeImage (state_of (handleExtract_sync None shownState)) = 2 /\
  status (state_of (handleExtract_sync None shownState)) = Error.
Proof.
  assert (H : trim (url shownState) <> []) by (vm_compute; discriminate).
  split; [exact H|].
  pose proof (submit_without_key_frame shownState H)
    as (_ & _ & _ & Hp & Ha & _ & _ & Hs).
  split; [exact Hp|]. split; [exact Ha|]. apply Hs. reflexivity.
Defined.

(** ** Invariants of the event loop *)

Section Invariants.

Variable ai : option GoogleGenAI.
Variable JSON_parse : jsstring -> JsError + option ProductData.

(** A property kept by every step holds after every trace. *)
Lemma run_invariant (P : World -> Prop) :
  (forall w e, P w -> P (step ai JSON_parse w e)) ->
  forall es w, P w -> P (run ai JSON_parse es w).
Proof.
  intros Hstep es. induction es as [|e es IH]; intros w Hw; simpl.
  - exact Hw.
  - apply IH, Hstep, Hw.
Qed.

(** The same along the traces the page allows, where a step need only keep
    the property when its event is enabled. *)
Lemma allowed_invariant (P : World -> Prop) :
  (forall w e, P w -> enabled w e = true -> P (step ai JSON_parse w e)) ->
  forall es w, P w -> allowed ai JSON_parse es w = true ->
               P (run ai JSON_parse es w).
Proof.
  intros Hstep es. induction es as [|e es IH]; intros w Hw Hal; simpl in *.
  - exact Hw.
  - apply andb_true_iff in Hal as [He Hal]. apply IH; auto.
Qed.

End Invariants.

(** Effects never touch the state cells. *)
Lemma ui_perform (w : World) (e : Effect) : ui (perform w e) = ui w.
Proof. destruct e; reflexivity. Qed.

Lemma ui_fold_perform (fx : list Effect) (w : World) :
  ui (fold_left perform fx w) = ui w.
Proof.
  revert w. induction fx as [|e fx IH]; intros w; simpl.
  - reflexivity.
  - rewrite IH. apply ui_perform.
Qed.

Lemma ui_dispatch {A} (h : Act A) (w : World) :
  ui (dispatch h w) = state_of (h (ui w)).
Proof. unfold dispatch. rewrite ui_fold_perform. reflexivity. Qed.

(** Timer callbacks only write the copied flag. *)
Lemma fire_frame (l : list (Z * Callback)) (s : UIState) :
  let s' := fold_left (fun s tm => run_callback (snd tm) s) l s in
  url s' = url s /\ loading s' = loading s /\ error s' = error s /\
  product s' = product s /\ activeImage s' = activeImage s.
Proof.
  revert s. induction l as [|[t []] l IH]; intros s; simpl.
  - repeat split.
  - destruct (IH (setCopied false s)) as (H1 & H2 & H3 & H4 & H5).
    simpl in *. repeat split; assumption.
Qed.

(** What [copyToClipboard] and [selectImage] leave alone. *)
Lemma copy_frame (s : UIState) :
  let s' := state_of (copyToClipboard s) in
  url s' = url s /\ loading s' = loading s /\ error s' = error s /\
  product s' = product s /\ activeImage s' = activeImage s.
Proof. cbv zeta. run_act. destruct (product s) eqn:E; simpl; rewrite ?E; repeat split. Qed.

Lemma thumbnails_nth (s : UIState) (k : nat) (h : Act unit) :
  nth_error (thumbnails s) k = Some h ->
  exists p, product s = Some p /\
            (1 < length (images p))%nat /\ (k < length (images p))%nat /\
            h = update (setActiveImage (Z.of_nat k)).
Proof.
  unfold thumbnails. destruct (product s) as [p|]; [|destruct k; discriminate].
  destruct (1 <? Z.of_nat (length (images p))) eqn:E; [|destruct k; discriminate].
  intros H. exists p. apply Z.ltb_lt in E.
  assert (Hk : (k < length (images p))%nat).
  { assert (Hn : nth_error
        (map (fun idx => update (setActiveImage (Z.of_nat idx)))
             (seq 0 (length (images p)))) k <> None) by (rewrite H; discriminate).
    apply nth_error_Some in Hn. rewrite length_map, length_seq in Hn. exact Hn. }
  repeat split; [lia | exact Hk |].
  rewrite nth_error_map, nth_error_seq in H.
  apply Nat.ltb_lt in Hk. rewrite Hk in H. simpl in H. congruence.
Qed.

Lemma select_frame (i : Z) (s : UIState) :
  let s' := state_of (selectImage i s) in
  url s' = url s /\ loading s' = loading s /\ error s' = error s /\
  product s' = product s /\ copied s' = copied s.
Proof.
  cbv zeta. unfold selectImage. destruct (i <? 0); [run_act; repeat split|].
  destruct (nth_error (thumbnails s) (Z.to_nat i)) as [h|] eqn:E.
  - apply thumbnails_nth in E as (p & _ & _ & _ & ->). run_act. repeat split.
  - run_act. repeat split.
Qed.

(** The resumption writes [loading], and either the record with the selected
    image or the error; it never looks at the cells it overwrites. *)
Lemma resume_cases
    (JSON_parse : jsstring -> JsError + option ProductData) (r : Settled) (s : UIState) :
  (exists d, handleExtract_resume JSON_parse r s =
             (Normal tt, setLoading false (setActiveImage 0 (setProduct d s)), []))
  \/
  (exists e, handleExtract_resume JSON_parse r s =
             (Normal tt,
              setLoading false (setError (or_else (message e) MSG_GENERIC) s),
              [ConsoleError e])).
Proof.
  destruct r as [resp|e].
  - destruct (text_truthy resp) as [t|] eqn:Ht.
    + destruct (JSON_parse t) as [e|d] eqn:Hp.
      * right. exists e. run_act. rewrite Ht. simpl. rewrite Hp. reflexivity.
      * left. exists d. run_act. rewrite Ht. simpl. rewrite Hp. reflexivity.
    + right. exists (mkJsError MSG_NO_TEXT). run_act. rewrite Ht. reflexivity.
  - right. exists e. reflexivity.
Qed.

Lemma inflight_fold_perform (fx : list Effect) (w : World) :
  inflight (fold_left perform fx w) = inflight w ++ issued fx.
Proof.
  revert w. induction fx as [|e fx IH]; intros w; simpl.
  - symmetry. apply app_nil_r.
  - rewrite IH. destruct e; simpl; try reflexivity.
    rewrite <- app_assoc. reflexivity.
Qed.

Lemma inflight_dispatch {A} (h : Act A) (w : World) :
  inflight (dispatch h w) = inflight w ++ issued (effects (h (ui w))).
Proof. unfold dispatch. rewrite inflight_fold_perform. reflexivity. Qed.

Lemma copy_issues_nothing (s : UIState) : issued (effects (copyToClipboard s)) = [].
Proof. run_act. destruct (product s); reflexivity. Qed.

Lemma select_effects (i : Z) (s : UIState) : effects (selectImage i s) = [].
Proof.
  unfold selectImage. destruct (i <? 0); [reflexivity|].
  destruct (nth_error (thumbnails s) (Z.to_nat i)) as [h|] eqn:E.
  - apply thumbnails_nth in E as (p & _ & _ & _ & ->). reflexivity.
  - reflexivity.
Qed.

Lemma resume_issues_nothing
    (JSON_parse : jsstring -> JsError + option ProductData) (r : Settled) (s : UIState) :
  issued (effects (handleExtract_resume JSON_parse r s)) = [].
Proof.
  destruct (resume_cases JSON_parse r s) as [[d ->]|[e ->]]; reflexivity.
Qed.

Lemma resume_not_loading
    (JSON_parse : jsstring -> JsError + option ProductData) (r : Settled) (s : UIState) :
  loading (state_of (handleExtract_resume JSON_parse r s)) = false.
Proof.
  destruct (resume_cases JSON_parse r s) as [[d ->]|[e ->]]; reflexivity.
Qed.

(** The events other than [Submit] and [Settle] neither write [loading] nor
    issue a request. *)
Lemma quiet_step
    (ai : option GoogleGenAI) (JSON_parse : jsstring -> JsError + option ProductData)
    (w : World) (e : Event) :
  e <> Submit -> (forall k r, e <> Settle k r) ->
  loading (ui (step ai JSON_parse w e)) = loading (ui w) /\
  inflight (step ai JSON_parse w e) = inflight w.
Proof.
  intros H1 H2. destruct e as [v| |k r|i| |ms]; simpl.
  - split; reflexivity.
  - congruence.
  - exfalso. exact (H2 k r eq_refl).
  - rewrite ui_dispatch, inflight_dispatch, select_effects. simpl.
    rewrite app_nil_r. split; [apply select_frame | reflexivity].
  - rewrite ui_dispatch, inflight_dispatch, copy_issues_nothing.
    rewrite app_nil_r. split; [apply copy_frame | reflexivity].
  - split; [apply fire_frame | reflexivity].
Qed.

(** Without the API key nothing is ever in flight and [loading] stays
    false. *)
Lemma no_key_idle (JSON_parse : jsstring -> JsError + option ProductData)
    (es : list Event) :
  let w := run None JSON_parse es initialWorld in
  loading (ui w) = false /\ inflight w = [].
Proof.
  apply (run_invariant None JSON_parse
           (fun w => loading (ui w) = false /\ inflight w = [])).
  - intros w e [Hl Hi].
    destruct e as [v| |k r|i| |ms];
      try (match goal with
           | |- context [step _ _ _ ?e] =>
               destruct (quiet_step None JSON_parse w e
                           ltac:(discriminate) ltac:(discriminate)) as [-> ->]
           end; split; assumption).
    + cbn [step]. rewrite ui_dispatch, inflight_dispatch.
      destruct (truthy (trim (url (ui w)))) eqn:E.
      * rewrite (sync_no_key _ E). simpl. rewrite app_nil_r. split; assumption.
      * rewrite (sync_blank None _ E). simpl. rewrite app_nil_r. split; assumption.
    + cbn [step]. rewrite Hi. destruct k; simpl; split; assumption.
  - split; reflexivity.
Qed.

(** C3: without the API key, in whatever state the page has reached, the
    submission of a non-blank url ends at once in the Error status with the
    fixed configuration message, and no request is issued: the handler emits
    no effect and nothing is in flight afterwards. *)
Theorem no_key_submit_is_config_error
    (JSON_parse : jsstring -> JsError + option ProductData) (es : list Event) :
  let w := run None JSON_parse es initialWorld in
  trim (url (ui w)) <> [] ->
  let w' := step None JSON_parse w Submit in
  status (ui w') = Error /\
  error (ui w') = MSG_NO_KEY /\
  result (handleExtract_sync None (ui w)) = Normal Returned /\
  effects (handleExtract_sync None (ui w)) = [] /\
  inflight w' = [].
Proof.
  intros w H w'. apply truthy_iff in H.
  destruct (no_key_idle JSON_parse es) as [Hl Hi]. fold w in Hl, Hi.
  unfold w'. cbn [step]. rewrite ui_dispatch, inflight_dispatch.
  rewrite (sync_no_key _ H). simpl. rewrite app_nil_r.
  repeat split; try assumption.
  unfold status. simpl. rewrite Hl. reflexivity.
Qed.

Lemma no_key_submit_is_config_error_witness :
  trim (url (ui (run None sampleParse [Change sampleUrl] initialWorld))) <> [] /\
  status (ui (step None sampleParse
                (run None sampleParse [Change sampleUrl] initialWorld) Submit)) = Error /\
  error (ui (step None sampleParse
               (run None sampleParse [Change sampleUrl] initialWorld) Submit)) = MSG_NO_KEY.
Proof.
  assert (H : trim (url (ui (run None sampleParse [Change sampleUrl] initialWorld))) <> [])
    by (vm_compute; discriminate).
  split; [exact H|].
  pose proof (no_key_submit_is_config_error sampleParse [Change sampleUrl] H)
    as (Hs & He & _).
  split; [exact Hs | exact He].
Defined.

(** ** The resumption of [handleExtract] *)

Section ResumeFacts.

Variable JSON_parse : jsstring -> JsError + option ProductData.

Lemma resume_failure (r : Settled) (e : JsError) (s : UIState) :
  Fails JSON_parse r e ->
  handleExtract_resume JSON_parse r s =
  (Normal tt, setLoading false (setError (or_else (message e) MSG_GENERIC) s),
   [ConsoleError e]).
Proof.
  intros H. inversion H as [err|resp Ht|resp t err Ht Hp]; subst.
  - reflexivity.
  - run_act. rewrite Ht. reflexivity.
  - run_act. rewrite Ht. simpl. rewrite Hp. reflexivity.
Qed.

Lemma resume_success
    (resp : GenerateContentResponse) (t : jsstring) (d : option ProductData)
    (s : UIState) :
  text_truthy resp = Some t -> JSON_parse t = inr d ->
  handleExtract_resume JSON_parse (Fulfilled resp) s =
  (Normal tt, setLoading false (setActiveImage 0 (setProduct d s)), []).
Proof. intros Ht Hp. run_act. rewrite Ht. simpl. rewrite Hp. reflexivity. Qed.

(** Nothing escapes the [try] block, however the call settles. *)
Lemma resume_never_throws (r : Settled) (s : UIState) :
  result (handleExtract_resume JSON_parse r s) = Normal tt.
Proof.
  destruct (resume_cases JSON_parse r s) as [[d ->]|[e ->]]; reflexivity.
Qed.

Lemma whole_call (c : GoogleGenAI) (r : Settled) (s : UIState) :
  truthy (trim (url s)) = true ->
  state_of (handleExtract JSON_parse (Some c) r s) =
    state_of (handleExtract_resume JSON_parse r
                (setProduct None (setError [] (setLoading true s)))) /\
  result (handleExtract JSON_parse (Some c) r s) =
    result (handleExtract_resume JSON_parse r
              (setProduct None (setError [] (setLoading true s)))).
Proof.
  intros H. unfold handleExtract, bind. rewrite (sync_request c s H).
  destruct (handleExtract_resume _ _ _) as [[cpl s2] fx2]. split; reflexivity.
Qed.

(** C4: for every failing outcome of the call (the promise rejects, the
    response has no text, or the text does not parse), a whole run of
    [handleExtract] on a non-blank url completes normally, so the failure
    is caught inside the handler; it ends in the Error status, the error
    message being the failure's message, or the generic message when that
    one is empty, and no record is held. *)
Theorem failure_is_caught_as_error_state
    (c : GoogleGenAI) (r : Settled) (e : JsError) (s : UIState) :
  trim (url s) <> [] ->
  Fails JSON_parse r e ->
  let out := handleExtract JSON_parse (Some c) r s in
  result out = Normal tt /\
  status (state_of out) = Error /\
  error (state_of out) = (if truthy (message e) then message e else MSG_GENERIC) /\
  product (state_of out) = None /\
  loading (state_of out) = false.
Proof.
  intros Hu Hf out. apply truthy_iff in Hu.
  destruct (whole_call c r s Hu) as [Hs Hr]. unfold out.
  rewrite Hs, Hr, (resume_failure r e _ Hf). unfold result, state_of. simpl.
  repeat split.
  unfold status. simpl. rewrite or_else_truthy; reflexivity.
Qed.

(** C9: a call that was started (non-blank url, key present: the status
    became Loading) has [loading] false and a status other than Loading as
    soon as it has settled, whether it succeeded or failed and whatever
    state the page was in by then. *)
Theorem settled_call_is_not_loading
    (c : GoogleGenAI) (r : Settled) (s : UIState) :
  trim (url s) <> [] ->
  status (state_of (handleExtract_sync (Some c) s)) = Loading /\
  (forall s', loading (state_of (handleExtract_resume JSON_parse r s')) = false /\
              status (state_of (handleExtract_resume JSON_parse r s')) <> Loading) /\
  status (state_of (handleExtract JSON_parse (Some c) r s)) <> Loading.
Proof.
  intros Hu.
  assert (Hnl : forall s',
             loading (state_of (handleExtract_resume JSON_parse r s')) = false /\
             status (state_of (handleExtract_resume JSON_parse r s')) <> Loading).
  { intros s'. pose proof (resume_not_loading JSON_parse r s') as Hl.
    split; [exact Hl|]. unfold status. rewrite Hl.
    destruct (truthy _); [discriminate|]. destruct (product _); discriminate. }
  apply truthy_iff in Hu.
  split; [rewrite (sync_request c s Hu); reflexivity|].
  split; [exact Hnl|].
  destruct (whole_call c r s Hu) as [-> _]. apply Hnl.
Qed.

End ResumeFacts.

Lemma failure_is_caught_as_error_state_witness :
  trim (url shownState) <> [] /\
  Fails sampleParse htmlText (mkJsError (utf16 "Unexpected token")) /\
  result (handleExtract sampleParse (Some sampleClient) htmlText shownState) = Normal tt /\
  status (state_of (handleExtract sampleParse (Some sampleClient) htmlText shownState))
    = Error /\
  error (state_of (handleExtract sampleParse (Some sampleClient) htmlText shownState))
    = utf16 "Unexpected token" /\
  product (state_of (handleExtract sampleParse (Some sampleClient) htmlText shownState))
    = None.
Proof.
  assert (Hu : trim (url shownState) <> []) by (vm_compute; discriminate).
  assert (Hf : Fails sampleParse htmlText (mkJsError (utf16 "Unexpected token")))
    by (apply fails_unparsable with (t := utf16 "<html>"); reflexivity).
  split; [exact Hu|]. split; [exact Hf|].
  pose proof (failure_is_caught_as_error_state sampleParse sampleClient _ _ _ Hu Hf)
    as (Hr & Hs & He & Hp & _).
  split; [exact Hr|]. split; [exact Hs|]. split; [exact He | exact Hp].
Defined.

Lemma settled_call_is_not_loading_witness :
  trim (url typedState) <> [] /\
  status (state_of (handleExtract_sync (Some sampleClient) typedState)) = Loading /\
  status (state_of (handleExtract sampleParse (Some sampleClient) blueText typedState))
    <> Loading.
Proof.
  assert (Hu : trim (url typedState) <> []) by (vm_compute; discriminate).
  split; [exact Hu|].
  pose proof (settled_call_is_not_loading sampleParse sampleClient blueText _ Hu)
    as (H1 & _ & H3).
  split; [exact H1 | exact H3].
Defined.

(** ** The thumbnail strip *)

Lemma selection_ok_frame (s s' : UIState) :
  product s' = product s -> activeImage s' = activeImage s ->
  selection_ok s -> selection_ok s'.
Proof. unfold selection_ok. intros -> -> H. exact H. Qed.

(** The click handlers, position by position. *)
Lemma thumbnails_lookup (s : UIState) (p : ProductData) (k : nat) :
  product s = Some p ->
  nth_error (thumbnails s) k =
  if (1 <? Z.of_nat (length (images p))) && (k <? length (images p))%nat
  then Some (update (setActiveImage (Z.of_nat k))) else None.
Proof.
  intros Hp. unfold thumbnails. rewrite Hp.
  destruct (1 <? Z.of_nat (length (images p))); simpl.
  - rewrite nth_error_map, nth_error_seq.
    destruct (k <? length (images p))%nat; reflexivity.
  - destruct k; reflexivity.
Qed.

Lemma selection_ok_select (i : Z) (s : UIState) :
  selection_ok s -> selection_ok (state_of (selectImage i s)).
Proof.
  intros H. unfold selectImage. destruct (i <? 0) eqn:Hi; [exact H|].
  destruct (nth_error (thumbnails s) (Z.to_nat i)) as [h|] eqn:E; [|exact H].
  apply thumbnails_nth in E as (p & Hp & _ & Hk & ->).
  intros q Hq. simpl in Hq. rewrite Hp in Hq. injection Hq as <-.
  right. simpl. lia.
Qed.

(** Every state the page can reach keeps the selected image within the
    record held: a new record comes with the selection reset to 0 (lines
    85-86), and a click selects a position that has a thumbnail. *)
Lemma selection_ok_reachable
    (ai : option GoogleGenAI) (JSON_parse : jsstring -> JsError + option ProductData)
    (es : list Event) :
  selection_ok (ui (run ai JSON_parse es initialWorld)).
Proof.
  apply (run_invariant ai JSON_parse (fun w => selection_ok (ui w))).
  - intros w e H. destruct e as [v| |k r|i| |ms]; cbn [step].
    + rewrite ui_dispatch. exact H.
    + rewrite ui_dispatch. destruct (truthy (trim (url (ui w)))) eqn:E.
      * destruct ai as [c|].
        -- rewrite (sync_request c _ E). intros p Hp. discriminate.
        -- rewrite (sync_no_key _ E). exact H.
      * rewrite (sync_blank ai _ E). exact H.
    + destruct (nth_error (inflight w) k); [|exact H].
      rewrite ui_dispatch. cbn [ui].
      destruct (resume_cases JSON_parse r (ui w)) as [[d ->]|[e ->]].
      * intros p _. left. reflexivity.
      * exact H.
    + rewrite ui_dispatch. apply selection_ok_select, H.
    + rewrite ui_dispatch.
      destruct (copy_frame (ui w)) as (_ & _ & _ & Hp & Ha).
      exact (selection_ok_frame _ _ Hp Ha H).
    + destruct (fire_frame (filter (due (now w + Z.max 0 ms)) (timers w)) (ui w))
        as (_ & _ & _ & Hp & Ha).
      exact (selection_ok_frame _ _ Hp Ha H).
  - intros p Hp. discriminate.
Qed.

Lemma setActiveImage_same (s : UIState) (i : Z) :
  activeImage s = i -> setActiveImage i s = s.
Proof. intros <-. destruct s; reflexivity. Qed.

(** C5: in every state the page can reach that holds a record [r], selecting
    image [i] with [0 <= i < length (images r)] leaves the selected image at
    [i] and changes nothing else, and for every other [i] it is a no-op that
    returns the state unchanged. *)
Theorem select_image_within_bounds
    (ai : option GoogleGenAI) (JSON_parse : jsstring -> JsError + option ProductData)
    (es : list Event) (r : ProductData) (i : Z) :
  let s := ui (run ai JSON_parse es initialWorld) in
  product s = Some r ->
  (0 <= i < Z.of_nat (length (images r)) ->
   activeImage (state_of (selectImage i s)) = i /\
   selectImage i s = (Normal tt, setActiveImage i s, [])) /\
  (~ 0 <= i < Z.of_nat (length (images r)) ->
   selectImage i s = (Normal tt, s, [])).
Proof.
  intros s Hp.
  pose proof (selection_ok_reachable ai JSON_parse es r Hp) as Hok. fold s in Hok.
  unfold selectImage.
  destruct (i <? 0) eqn:Hi.
  - apply Z.ltb_lt in Hi. split; [intros Hr; exfalso; lia | reflexivity].
  - apply Z.ltb_ge in Hi.
    rewrite (thumbnails_lookup s r (Z.to_nat i) Hp).
    destruct (1 <? Z.of_nat (length (images r))) eqn:H1;
      destruct (Z.to_nat i <? length (images r))%nat eqn:Hk; simpl;
      first [apply Z.ltb_lt in H1 | apply Z.ltb_ge in H1];
      first [apply Nat.ltb_lt in Hk | apply Nat.ltb_ge in Hk].
    + rewrite Z2Nat.id by exact Hi.
      split; [intros _; split; reflexivity | intros Hn; exfalso; lia].
    + split; [intros Hr; exfalso; lia | reflexivity].
    + split; [|intros Hn; exfalso; lia]. intros Hr.
      assert (Ha : activeImage s = i) by lia.
      unfold ret. rewrite (setActiveImage_same s i Ha). split; [exact Ha | reflexivity].
    + split; [intros Hr; exfalso; lia | reflexivity].
Qed.

Lemma select_image_within_bounds_witness :
  product (ui redWorld) = Some redLamp /\
  activeImage (state_of (selectImage 2 (ui redWorld))) = 2 /\
  selectImage 3 (ui redWorld) = (Normal tt, ui redWorld, []).
Proof.
  assert (Hp : product (ui (run (Some sampleClient) sampleParse (extracted redText)
                              initialWorld)) = Some redLamp) by reflexivity.
  split; [exact Hp|].
  split.
  - apply (select_image_within_bounds (Some sampleClient) sampleParse
             (extracted redText) redLamp 2 Hp).
    simpl. lia.
  - apply (select_image_within_bounds (Some sampleClient) sampleParse
             (extracted redText) redLamp 3 Hp).
    simpl. lia.
Defined.

(** ** [copyToClipboard] and its timer *)

Lemma dispatch_copy (w : World) (r : ProductData) :
  product (ui w) = Some r ->
  dispatch copyToClipboard w =
  mkWorld (setCopied true (ui w)) (inflight w)
          (timers w ++ [(now w + 2000, ResetCopied)]) (now w)
          (clipboard w ++ [summary r]) (console w).
Proof. intros H. unfold dispatch. run_act. rewrite H. reflexivity. Qed.

Lemma copy_with_product (s : UIState) (r : ProductData) :
  product s = Some r ->
  copyToClipboard s =
  (Normal tt, setCopied true s, [WriteText (summary r); SetTimeout ResetCopied 2000]).
Proof. intros H. unfold copyToClipboard, bind, get. rewrite H. reflexivity. Qed.

Lemma summary_includes_name (r : ProductData) : includes (name r) (summary r) = true.
Proof. apply includes_middle. Qed.

Lemma summary_includes_price (r : ProductData) : includes (price r) (summary r) = true.
Proof.
  apply includes_spec.
  exists (utf16 "Produto: " ++ name r ++ [10%N] ++ utf16 "Preço: ").
  exists ([10%N; 10%N] ++ utf16 "Descrição:" ++ [10%N] ++ description r).
  unfold summary. rewrite <- !app_assoc. reflexivity.
Qed.

(** C6: with a record [r] held, [copyToClipboard] writes to the clipboard
    one text, the summary, in which [name r] and [price r] occur literally,
    and sets the copied flag. *)
Theorem copy_summary_contains_name_and_price (w : World) (r : ProductData) :
  product (ui w) = Some r ->
  let out := copyToClipboard (ui w) in
  let w' := dispatch copyToClipboard w in
  effects out = [WriteText (summary r); SetTimeout ResetCopied 2000] /\
  clipboard w' = clipboard w ++ [summary r] /\
  includes (name r) (summary r) = true /\
  includes (price r) (summary r) = true /\
  copied (state_of out) = true /\
  copied (ui w') = true.
Proof.
  intros H out w'. unfold w'. rewrite (dispatch_copy w r H).
  unfold out. rewrite (copy_with_product (ui w) r H).
  split; [reflexivity|]. split; [reflexivity|].
  split; [apply summary_includes_name|].
  split; [apply summary_includes_price|].
  split; reflexivity.
Qed.

Lemma copy_summary_contains_name_and_price_witness :
  product (ui blueWorld) = Some blueWidget /\
  clipboard (dispatch copyToClipboard blueWorld) = [summary blueWidget] /\
  includes (utf16 "Blue Widget") (summary blueWidget) = true /\
  includes (utf16 "R$ 29,90") (summary blueWidget) = true /\
  copied (ui (dispatch copyToClipboard blueWorld)) = true.
Proof.
  assert (H : product (ui blueWorld) = Some blueWidget) by (vm_compute; reflexivity).
  assert (Hq : clipboard blueWorld = []) by (vm_compute; reflexivity).
  split; [exact H|].
  pose proof (copy_summary_contains_name_and_price blueWorld blueWidget H)
    as (_ & Hc & Hn & Hp & _ & Hf).
  rewrite Hq in Hc.
  split; [exact Hc|]. split; [exact Hn|]. split; [exact Hp | exact Hf].
Defined.

Lemma fire_keeps_cleared (l : list (Z * Callback)) (s : UIState) :
  copied s = false ->
  copied (fold_left (fun s tm => run_callback (snd tm) s) l s) = false.
Proof.
  revert s. induction l as [|[t []] l IH]; intros s H; simpl.
  - exact H.
  - apply IH. reflexivity.
Qed.

(** One timer firing is enough to clear the flag. *)
Lemma fire_clears (l : list (Z * Callback)) (s : UIState) :
  l <> [] ->
  copied (fold_left (fun s tm => run_callback (snd tm) s) l s) = false.
Proof.
  destruct l as [|[t []] l]; [congruence|]. intros _. simpl.
  apply fire_keeps_cleared. reflexivity.
Qed.

Lemma none_due (t : Z) (l : list (Z * Callback)) :
  (forall tm, In tm l -> t < fst tm) ->
  filter (due t) l = [] /\ filter (fun tm => negb (due t tm)) l = l.
Proof.
  induction l as [|tm l IH]; intros H; simpl.
  - split; reflexivity.
  - assert (Hd : due t tm = false).
    { unfold due. apply Z.leb_gt. apply H. left. reflexivity. }
    rewrite Hd. simpl.
    destruct IH as [-> ->]; [intros x Hx; apply H; right; exact Hx|].
    split; reflexivity.
Qed.

(** C7, as amended: each [copyToClipboard] call with a record held sets the
    copied flag and appends its own one-shot reset, due 2000 ms later, to
    the pending timers without cancelling any of them.  Once the clock has
    reached that due time the flag is false and the reset is gone from the
    queue; before that time the flag is still true provided no earlier reset
    comes due; and any reset that comes due clears the flag, whichever call
    set it. *)
Theorem copy_schedules_uncancelled_reset (w : World) (r : ProductData) :
  product (ui w) = Some r ->
  let w1 := dispatch copyToClipboard w in
  copied (ui w1) = true /\
  timers w1 = timers w ++ [(now w + 2000, ResetCopied)] /\
  (forall t, now w + 2000 <= t ->
     copied (ui (advance t w1)) = false /\
     ~ In (now w + 2000, ResetCopied) (timers (advance t w1))) /\
  (forall t, t < now w + 2000 ->
     (forall tm, In tm (timers w) -> t < fst tm) ->
     copied (ui (advance t w1)) = true /\
     In (now w + 2000, ResetCopied) (timers (advance t w1))) /\
  (forall t w2, (exists tm, In tm (timers w2) /\ fst tm <= t) ->
     copied (ui (advance t w2)) = false).
Proof.
  intros H w1. unfold w1. rewrite (dispatch_copy w r H).
  split; [reflexivity|]. split; [reflexivity|]. split; [|split].
  - intros t Ht. unfold advance. cbn [ui timers]. split.
    + apply fire_clears. intros E.
      assert (Hin : In (now w + 2000, ResetCopied)
                       (filter (due t) (timers w ++ [(now w + 2000, ResetCopied)]))).
      { apply filter_In. split.
        - apply in_or_app. right. left. reflexivity.
        - unfold due. apply Z.leb_le. exact Ht. }
      rewrite E in Hin. exact Hin.
    + intros Hin. apply filter_In in Hin as [_ Hd].
      unfold due in Hd. simpl in Hd.
      apply negb_true_iff, Z.leb_gt in Hd. lia.
  - intros t Ht Hnone. unfold advance. cbn [ui timers].
    assert (Hall : forall tm, In tm (timers w ++ [(now w + 2000, ResetCopied)]) ->
                              t < fst tm).
    { intros tm Hin. apply in_app_or in Hin as [Hin|[<-|[]]].
      - apply Hnone, Hin.
      - exact Ht. }
    destruct (none_due t _ Hall) as [-> ->]. split.
    + reflexivity.
    + apply in_or_app. right. left. reflexivity.
  - intros t w2 (tm & Hin & Hd). unfold advance. cbn [ui].
    apply fire_clears. intros E.
    assert (Hf : In tm (filter (due t) (timers w2))).
    { apply filter_In. split; [exact Hin|]. unfold due. apply Z.leb_le. exact Hd. }
    rewrite E in Hf. exact Hf.
Qed.

Lemma copy_schedules_uncancelled_reset_witness :
  product (ui blueWorld) = Some blueWidget /\
  timers (dispatch copyToClipboard blueWorld) = [(2000, ResetCopied)] /\
  copied (ui (advance 2000 (dispatch copyToClipboard blueWorld))) = false /\
  copied (ui (advance 1999 (dispatch copyToClipboard blueWorld))) = true.
Proof.
  assert (Hp : product (ui blueWorld) = Some blueWidget) by (vm_compute; reflexivity).
  assert (Hn : now blueWorld = 0) by (vm_compute; reflexivity).
  assert (Hq : timers blueWorld = []) by (vm_compute; reflexivity).
  split; [exact Hp|].
  pose proof (copy_schedules_uncancelled_reset blueWorld blueWidget Hp)
    as (_ & Ht & Hfire & Hkeep & _).
  rewrite Hn, Hq in *. split; [exact Ht|]. split.
  - destruct (Hfire 2000) as [Hc _]; [lia | exact Hc].
  - destruct (Hkeep 1999) as [Hc _]; [lia | intros tm [] | exact Hc].
Defined.

(** C7 as stated fails: a second copy 1000 ms after the first does not
    supersede the pending reset.  At 2000 ms the first timer fires and
    clears the flag the second call had set, while the second call's own
    reset, due at 3000 ms, is still pending. *)
Lemma earlier_reset_clears_later_copy :
  now twoCopies = 1000 /\
  copied (ui twoCopies) = true /\
  timers twoCopies = [(2000, ResetCopied); (3000, ResetCopied)] /\
  now (step (Some sampleClient) sampleParse twoCopies (Elapse 1000)) = 2000 /\
  copied (ui (step (Some sampleClient) sampleParse twoCopies (Elapse 1000))) = false /\
  timers (step (Some sampleClient) sampleParse twoCopies (Elapse 1000))
    = [(3000, ResetCopied)].
Proof. vm_compute. repeat split. Qed.

(** ** Overlapping calls *)

Lemma remove_nth_single {A} (k : nat) (l : list A) :
  length l = 1%nat -> nth_error l k <> None -> remove_nth k l = [].
Proof.
  destruct l as [|x [|y l]]; try discriminate. intros _.
  destruct k as [|k]; simpl.
  - reflexivity.
  - intros Hn. exfalso. apply Hn. destruct k; reflexivity.
Qed.

(** Along the traces the page allows, requests never overlap: the submit
    button is disabled from the moment a request is issued until it has
    settled. *)
Lemma one_at_a_time_allowed
    (ai : option GoogleGenAI) (JSON_parse : jsstring -> JsError + option ProductData)
    (es : list Event) :
  allowed ai JSON_parse es initialWorld = true ->
  one_at_a_time (run ai JSON_parse es initialWorld).
Proof.
  apply (allowed_invariant ai JSON_parse one_at_a_time).
  - intros w e H He. unfold one_at_a_time in *.
    destruct e as [v| |k r|i| |ms];
      try (match goal with
           | |- context [step _ _ _ ?e] =>
               destruct (quiet_step ai JSON_parse w e
                           ltac:(discriminate) ltac:(discriminate)) as [-> ->]
           end; exact H).
    + simpl in He. apply negb_true_iff in He.
      destruct H as [[Hl _]|[_ Hi]]; [congruence|].
      cbn [step]. rewrite ui_dispatch, inflight_dispatch, Hi.
      destruct (truthy (trim (url (ui w)))) eqn:E.
      * destruct ai as [c|].
        -- rewrite (sync_request c _ E). left. split; reflexivity.
        -- rewrite (sync_no_key _ E). right. split; [exact He | reflexivity].
      * rewrite (sync_blank ai _ E). right. split; [exact He | reflexivity].
    + cbn [step]. destruct (nth_error (inflight w) k) eqn:Hk; [|exact H].
      right. rewrite ui_dispatch, inflight_dispatch. cbn [ui inflight].
      rewrite resume_not_loading, resume_issues_nothing, app_nil_r.
      split; [reflexivity|].
      destruct H as [[_ Hlen]|[_ Hi]].
      * apply remove_nth_single; [exact Hlen | rewrite Hk; discriminate].
      * rewrite Hi. destruct k; reflexivity.
  - right. split; reflexivity.
Qed.



(** C8, as amended: the handler carries no generation tag.  When a call
    settles, its outcome is written over whatever state is current: a
    success sets the record and resets the selected image, a failure sets
    the error message, and both clear [loading], with no test of which call
    it was.  What keeps a stale response from overwriting a newer one is the
    page: along every trace it allows, at most one request is in flight, and
    none while [loading] is false. *)
Theorem completions_untagged_calls_serialized
    (ai : option GoogleGenAI) (JSON_parse : jsstring -> JsError + option ProductData)
    (es : list Event) :
  allowed ai JSON_parse es initialWorld = true ->
  let w := run ai JSON_parse es initialWorld in
  (length (inflight w) <= 1)%nat /\
  (loading (ui w) = false -> inflight w = []) /\
  (forall resp t d s,
     text_truthy resp = Some t -> JSON_parse t = inr d ->
     state_of (handleExtract_resume JSON_parse (Fulfilled resp) s) =
     setLoading false (setActiveImage 0 (setProduct d s))) /\
  (forall r e s,
     Fails JSON_parse r e ->
     state_of (handleExtract_resume JSON_parse r s) =
     setLoading false (setError (or_else (message e) MSG_GENERIC) s)).
Proof.
  intros Hal w.
  pose proof (one_at_a_time_allowed ai JSON_parse es Hal) as H. fold w in H.
  split; [|split; [|split]].
  - destruct H as [[_ Hlen]|[_ Hi]]; [rewrite Hlen | rewrite Hi]; simpl; lia.
  - intros Hl. destruct H as [[Hl' _]|[_ Hi]]; [congruence | exact Hi].
  - intros resp t d s Ht Hp. rewrite (resume_success JSON_parse resp t d s Ht Hp).
    reflexivity.
  - intros r e s Hf. rewrite (resume_failure JSON_parse r e s Hf). reflexivity.
Qed.

Lemma completions_untagged_calls_serialized_witness :
  allowed (Some sampleClient) sampleParse resubmitted initialWorld = true /\
  (length (inflight (run (Some sampleClient) sampleParse resubmitted initialWorld))
   <= 1)%nat.
Proof.
  assert (Hal : allowed (Some sampleClient) sampleParse resubmitted initialWorld = true)
    by reflexivity.
  split; [exact Hal|].
  apply (completions_untagged_calls_serialized (Some sampleClient) sampleParse _ Hal).
Defined.

(** C8 as stated fails on the handler: two calls overlap, the later one
    (for the second url) settles first and its record is shown; then the
    earlier, stale call settles and its record replaces the newer one.  The
    page does not allow this trace: the second [Submit] comes while
    [loading]. *)
Lemma stale_response_overwrites_newer :
  inflight twoInFlight
    = [request sampleClient sampleUrl; request sampleClient otherUrl] /\
  inflight (step (Some sampleClient) sampleParse twoInFlight (Settle 1 redText))
    = [request sampleClient sampleUrl] /\
  product (ui (step (Some sampleClient) sampleParse twoInFlight (Settle 1 redText)))
    = Some redLamp /\
  product (ui (run (Some sampleClient) sampleParse
                 [Settle 1 redText; Settle 0 blueText] twoInFlight))
    = Some blueWidget /\
  allowed (Some sampleClient) sampleParse overlapping initialWorld = false.
Proof. vm_compute. repeat split. Qed.

(* ================================================================== *)
(** * Further properties of the handlers and of the page *)

(** ** The shape of each step *)

Lemma copy_without_product (s : UIState) :
  product s = None -> copyToClipboard s = (Normal tt, s, []).
Proof. intros H. unfold copyToClipboard, bind, get. rewrite H. reflexivity. Qed.

(** A click either finds no thumbnail, or sets the selection to the position
    of the thumbnail it hit. *)
Lemma select_cases (i : Z) (s : UIState) :
  selectImage i s = (Normal tt, s, []) \/
  (exists p, product s = Some p /\
             (1 < length (images p))%nat /\ 0 <= i < Z.of_nat (length (images p)) /\
             selectImage i s = (Normal tt, setActiveImage i s, [])).
Proof.
  unfold selectImage. destruct (i <? 0) eqn:Hi; [left; reflexivity|].
  apply Z.ltb_ge in Hi.
  destruct (nth_error (thumbnails s) (Z.to_nat i)) as [h|] eqn:E; [|left; reflexivity].
  apply thumbnails_nth in E as (p & Hp & H1 & Hk & ->).
  right. exists p. rewrite Z2Nat.id by exact Hi.
  repeat split; try assumption; lia.
Qed.

Section Shapes.

Variable ai : option GoogleGenAI.
Variable JSON_parse : jsstring -> JsError + option ProductData.

Lemma step_submit_cases (w : World) :
  step ai JSON_parse w Submit = w \/
  (ai = None /\
   step ai JSON_parse w Submit = with_ui (setError MSG_NO_KEY (ui w)) w) \/
  (exists c, ai = Some c /\
     step ai JSON_parse w Submit =
     mkWorld (setProduct None (setError [] (setLoading true (ui w))))
             (inflight w ++ [request c (url (ui w))])
             (timers w) (now w) (clipboard w) (console w)).
Proof.
  cbn [step]. unfold dispatch.
  destruct (truthy (trim (url (ui w)))) eqn:E.
  - destruct ai as [c|].
    + right. right. exists c. rewrite (sync_request c _ E). split; reflexivity.
    + right. left. rewrite (sync_no_key _ E). split; reflexivity.
  - left. rewrite (sync_blank ai _ E). apply with_ui_same.
Qed.

Lemma step_settle_cases (w : World) (k : nat) (r : Settled) :
  step ai JSON_parse w (Settle k r) = w \/
  (exists d,
     step ai JSON_parse w (Settle k r) =
     mkWorld (setLoading false (setActiveImage 0 (setProduct d (ui w))))
             (remove_nth k (inflight w)) (timers w) (now w) (clipboard w) (console w)) \/
  (exists e,
     step ai JSON_parse w (Settle k r) =
     mkWorld (setLoading false (setError (or_else (message e) MSG_GENERIC) (ui w)))
             (remove_nth k (inflight w)) (timers w) (now w) (clipboard w)
             (console w ++ [e])).
Proof.
  cbn [step]. destruct (nth_error (inflight w) k); [|left; reflexivity].
  right. unfold dispatch. cbn [ui].
  destruct (resume_cases JSON_parse r (ui w)) as [[d ->]|[e ->]].
  - left. exists d. reflexivity.
  - right. exists e. reflexivity.
Qed.

Lemma step_thumbnail_cases (w : World) (i : Z) :
  step ai JSON_parse w (ClickThumbnail i) = w \/
  (exists p, product (ui w) = Some p /\
             (1 < length (images p))%nat /\ 0 <= i < Z.of_nat (length (images p)) /\
             step ai JSON_parse w (ClickThumbnail i) =
             with_ui (setActiveImage i (ui w)) w).
Proof.
  cbn [step]. unfold dispatch.
  destruct (select_cases i (ui w)) as [->|(p & Hp & H1 & Hi & ->)].
  - left. apply with_ui_same.
  - right. exists p.
    split; [exact Hp|]. split; [exact H1|]. split; [exact Hi|]. reflexivity.
Qed.

Lemma step_copy_cases (w : World) :
  (product (ui w) = None /\ step ai JSON_parse w ClickCopy = w) \/
  (exists p, product (ui w) = Some p /\
     step ai JSON_parse w ClickCopy =
     mkWorld (setCopied true (ui w)) (inflight w)
             (timers w ++ [(now w + 2000, ResetCopied)]) (now w)
             (clipboard w ++ [summary p]) (console w)).
Proof.
  cbn [step]. destruct (product (ui w)) as [p|] eqn:Hp.
  - right. exists p. split; [reflexivity|]. apply dispatch_copy, Hp.
  - left. split; [reflexivity|]. unfold dispatch.
    rewrite (copy_without_product _ Hp). apply with_ui_same.
Qed.

End Shapes.

(** ** Outcomes of a whole call *)

Lemma whole_call_success
    (JSON_parse : jsstring -> JsError + option ProductData)
    (c : GoogleGenAI) (resp : GenerateContentResponse) (t : jsstring)
    (d : option ProductData) (s : UIState) :
  truthy (trim (url s)) = true ->
  text_truthy resp = Some t -> JSON_parse t = inr d ->
  handleExtract JSON_parse (Some c) (Fulfilled resp) s =
  (Normal tt,
   setLoading false (setActiveImage 0 (setProduct d
     (setProduct None (setError [] (setLoading true s))))),
   [GenerateContent (request c (url s))]).
Proof.
  intros Hu Ht Hp. unfold handleExtract, bind.
  rewrite (sync_request c s Hu), (resume_success JSON_parse resp t d _ Ht Hp).
  reflexivity.
Qed.

(** X1: a whole call that succeeds (non-blank url, key present, the text
    parses to a record [d]) ends in the Ready status holding [d], with the
    selection reset to 0, no error, [loading] off, the url and the copied
    flag untouched, one request issued and nothing logged; the large image
    is then the first image of [d], or the placeholder when [d] has none. *)
Theorem success_shows_record_from_first_image
    (JSON_parse : jsstring -> JsError + option ProductData)
    (c : GoogleGenAI) (resp : GenerateContentResponse) (t : jsstring)
    (d : ProductData) (s : UIState) :
  trim (url s) <> [] ->
  text_truthy resp = Some t ->
  JSON_parse t = inr (Some d) ->
  let out := handleExtract JSON_parse (Some c) (Fulfilled resp) s in
  result out = Normal tt /\
  status (state_of out) = Ready /\
  product (state_of out) = Some d /\
  activeImage (state_of out) = 0 /\
  error (state_of out) = [] /\
  loading (state_of out) = false /\
  url (state_of out) = url s /\
  copied (state_of out) = copied s /\
  effects out = [GenerateContent (request c (url s))] /\
  mainImage d (activeImage (state_of out)) =
    match images d with
    | [] => PlaceholderIcon
    | first :: _ => Picture (Some first) (name d)
    end.
Proof.
  intros Hu Ht Hp out. apply truthy_iff in Hu.
  unfold out. rewrite (whole_call_success JSON_parse c resp t (Some d) s Hu Ht Hp).
  unfold result, state_of, effects. cbn [fst snd].
  repeat (split; [reflexivity|]).
  cbn [activeImage setLoading setActiveImage]. unfold mainImage.
  destruct (images d); reflexivity.
Qed.

Lemma success_shows_record_from_first_image_witness :
  trim (url shownState) <> [] /\
  status (state_of (handleExtract sampleParse (Some sampleClient) blueText shownState))
    = Ready /\
  product (state_of (handleExtract sampleParse (Some sampleClient) blueText shownState))
    = Some blueWidget /\
  activeImage (state_of (handleExtract sampleParse (Some sampleClient) blueText shownState))
    = 0.
Proof.
  assert (Hu : trim (url shownState) <> []) by (vm_compute; discriminate).
  assert (Ht : text_truthy (mkResponse (Some (utf16 "{blue}"))) = Some (utf16 "{blue}"))
    by (vm_compute; reflexivity).
  assert (Hp : sampleParse (utf16 "{blue}") = inr (Some blueWidget))
    by (vm_compute; reflexivity).
  split; [exact Hu|].
  pose proof (success_shows_record_from_first_image sampleParse sampleClient
                (mkResponse (Some (utf16 "{blue}"))) (utf16 "{blue}") blueWidget
                shownState Hu Ht Hp) as (_ & Hs & Hd & Ha & _).
  split; [exact Hs|]. split; [exact Hd | exact Ha].
Defined.

(** X2: when the text of the response parses without error to a falsy
    value such as [null], a whole call ends with no record and no error
    message, [loading] off and nothing logged: the status is Idle, not
    Error, and neither the error box nor the product card is rendered. *)
Theorem null_payload_ends_idle_without_error
    (JSON_parse : jsstring -> JsError + option ProductData)
    (c : GoogleGenAI) (resp : GenerateContentResponse) (t : jsstring) (s : UIState) :
  trim (url s) <> [] ->
  text_truthy resp = Some t ->
  JSON_parse t = inr None ->
  let out := handleExtract JSON_parse (Some c) (Fulfilled resp) s in
  result out = Normal tt /\
  status (state_of out) = Idle /\
  product (state_of out) = None /\
  error (state_of out) = [] /\
  loading (state_of out) = false /\
  showsError (state_of out) = false /\
  showsProduct (state_of out) = false /\
  effects out = [GenerateContent (request c (url s))].
Proof.
  intros Hu Ht Hp out. apply truthy_iff in Hu.
  unfold out. rewrite (whole_call_success JSON_parse c resp t None s Hu Ht Hp).
  repeat split.
Qed.

Lemma null_payload_ends_idle_without_error_witness :
  trim (url shownState) <> [] /\
  status (state_of (handleExtract (fun _ => inr None) (Some sampleClient)
                      blueText shownState)) = Idle /\
  error (state_of (handleExtract (fun _ => inr None) (Some sampleClient)
                     blueText shownState)) = [].
Proof.
  assert (Hu : trim (url shownState) <> []) by (vm_compute; discriminate).
  assert (Ht : text_truthy (mkResponse (Some (utf16 "{blue}"))) = Some (utf16 "{blue}"))
    by (vm_compute; reflexivity).
  split; [exact Hu|].
  pose proof (null_payload_ends_idle_without_error (fun _ => inr None) sampleClient
                (mkResponse (Some (utf16 "{blue}"))) (utf16 "{blue}")
                shownState Hu Ht eq_refl) as (_ & Hs & _ & He & _).
  split; [exact Hs | exact He].
Defined.

(** ** The images on the page *)

Lemma array_get_in_range {A} (l : list A) (i : Z) :
  0 <= i < Z.of_nat (length l) ->
  exists x, array_get l i = Some x /\ In x l.
Proof.
  intros Hi. unfold array_get.
  destruct (i <? 0) eqn:E; [apply Z.ltb_lt in E; lia|].
  destruct (nth_error l (Z.to_nat i)) as [x|] eqn:Hn.
  - exists x. split; [reflexivity|]. apply nth_error_In with (n := Z.to_nat i), Hn.
  - apply nth_error_None in Hn. lia.
Qed.

(** X3: in every state the page can reach that holds a record with at least
    one image, the selected index points at an existing image, so the large
    image is a [Picture] whose source is one of the record's images, never
    an undefined source. *)
Theorem main_image_source_is_defined
    (ai : option GoogleGenAI) (JSON_parse : jsstring -> JsError + option ProductData)
    (es : list Event) (p : ProductData) :
  let s := ui (run ai JSON_parse es initialWorld) in
  product s = Some p ->
  images p <> [] ->
  0 <= activeImage s < Z.of_nat (length (images p)) /\
  exists src, In src (images p) /\
              mainImage p (activeImage s) = Picture (Some src) (name p).
Proof.
  intros s Hp Hne.
  assert (Hlen : 0 < Z.of_nat (length (images p))).
  { destruct (images p) eqn:E; [congruence | simpl; lia]. }
  assert (Hr : 0 <= activeImage s < Z.of_nat (length (images p))).
  { pose proof (selection_ok_reachable ai JSON_parse es p Hp) as Hok.
    unfold s. destruct Hok; lia. }
  split; [exact Hr|].
  destruct (array_get_in_range (images p) _ Hr) as (src & Hg & Hin).
  exists src. split; [exact Hin|].
  unfold mainImage. apply Z.ltb_lt in Hlen. rewrite Hlen, Hg. reflexivity.
Qed.

Lemma main_image_source_is_defined_witness :
  product (ui (run (Some sampleClient) sampleParse thirdSelected initialWorld))
    = Some redLamp /\
  images redLamp <> [] /\
  0 <= activeImage (ui (run (Some sampleClient) sampleParse thirdSelected initialWorld))
    < Z.of_nat (length (images redLamp)).
Proof.
  assert (Hp : product (ui (run (Some sampleClient) sampleParse thirdSelected
                              initialWorld)) = Some redLamp) by (vm_compute; reflexivity).
  assert (Hne : images redLamp <> []) by (vm_compute; discriminate).
  split; [exact Hp|]. split; [exact Hne|].
  pose proof (main_image_source_is_defined (Some sampleClient) sampleParse
                thirdSelected redLamp Hp Hne) as [Hr _].
  exact Hr.
Defined.

(** Among the positions [start .. start + n - 1], the test [a =? idx] holds
    once when [a] is one of them and never otherwise. *)
Lemma one_match_in_seq (a : Z) (n start : nat) :
  length (filter (fun b : bool => b)
            (map (fun idx => a =? Z.of_nat idx) (seq start n))) =
  if (Z.of_nat start <=? a) && (a <? Z.of_nat (start + n)) then 1%nat else 0%nat.
Proof.
  revert start. induction n as [|n IH]; intros start.
  - simpl. destruct (Z.of_nat start <=? a) eqn:E1; [|reflexivity].
    destruct (a <? Z.of_nat (start + 0)) eqn:E2; [|reflexivity].
    apply Z.leb_le in E1. apply Z.ltb_lt in E2. lia.
  - cbn [seq map filter]. destruct (a =? Z.of_nat start) eqn:E.
    + apply Z.eqb_eq in E. cbn [length]. rewrite IH.
      replace (Z.of_nat (S start) <=? a) with false by (symmetry; apply Z.leb_gt; lia).
      replace (Z.of_nat start <=? a) with true by (symmetry; apply Z.leb_le; lia).
      replace (a <? Z.of_nat (start + S n)) with true by (symmetry; apply Z.ltb_lt; lia).
      reflexivity.
    + apply Z.eqb_neq in E. rewrite IH.
      replace (start + S n)%nat with (S start + n)%nat by lia.
      destruct (Z.of_nat (S start) <=? a) eqn:E1; destruct (Z.of_nat start <=? a) eqn:E2;
        try reflexivity.
      * apply Z.leb_le in E1. apply Z.leb_gt in E2. lia.
      * apply Z.leb_gt in E1. apply Z.leb_le in E2. lia.
Qed.

Lemma highlighted_at (a : Z) (n : nat) :
  0 <= a < Z.of_nat n ->
  array_get (map (fun idx => a =? Z.of_nat idx) (seq 0 n)) a = Some true.
Proof.
  intros Ha. unfold array_get.
  destruct (a <? 0) eqn:E; [apply Z.ltb_lt in E; lia|].
  rewrite nth_error_map, nth_error_seq.
  replace (Z.to_nat a <? n)%nat with true by (symmetry; apply Nat.ltb_lt; lia).
  simpl. rewrite Z2Nat.id by lia. rewrite Z.eqb_refl. reflexivity.
Qed.

(** X4: in every state the page can reach whose record has at least two
    images, so that the thumbnail strip is rendered, there is one thumbnail
    per image, exactly one of them is highlighted, and it is the one at the
    selected index. *)
Theorem exactly_one_thumbnail_highlighted
    (ai : option GoogleGenAI) (JSON_parse : jsstring -> JsError + option ProductData)
    (es : list Event) (p : ProductData) :
  let s := ui (run ai JSON_parse es initialWorld) in
  product s = Some p ->
  (1 < length (images p))%nat ->
  length (highlighted s) = length (images p) /\
  length (filter (fun b : bool => b) (highlighted s)) = 1%nat /\
  array_get (highlighted s) (activeImage s) = Some true.
Proof.
  intros s Hp H1.
  assert (Hr : 0 <= activeImage s < Z.of_nat (length (images p))).
  { pose proof (selection_ok_reachable ai JSON_parse es p Hp) as Hok.
    unfold s. destruct Hok; lia. }
  unfold highlighted. rewrite Hp.
  replace (1 <? Z.of_nat (length (images p))) with true
    by (symmetry; apply Z.ltb_lt; lia).
  split; [rewrite length_map, length_seq; reflexivity|].
  split; [|apply highlighted_at, Hr].
  rewrite one_match_in_seq.
  replace (Z.of_nat 0 <=? activeImage s) with true by (symmetry; apply Z.leb_le; lia).
  replace (activeImage s <? Z.of_nat (0 + length (images p))) with true
    by (symmetry; apply Z.ltb_lt; simpl; lia).
  reflexivity.
Qed.

Lemma exactly_one_thumbnail_highlighted_witness :
  product (ui redWorld) = Some redLamp /\
  (1 < length (images redLamp))%nat /\
  length (filter (fun b : bool => b) (highlighted (ui redWorld))) = 1%nat.
Proof.
  assert (Hp : product (ui (run (Some sampleClient) sampleParse (extracted redText)
                              initialWorld)) = Some redLamp) by (vm_compute; reflexivity).
  assert (H1 : (1 < length (images redLamp))%nat) by (vm_compute; lia).
  split; [exact Hp|]. split; [exact H1|].
  pose proof (exactly_one_thumbnail_highlighted (Some sampleClient) sampleParse
                (extracted redText) redLamp Hp H1) as (_ & Hc & _).
  exact Hc.
Defined.

(** X5: with a record of at least two images held, a click on the thumbnail
    at an existing position [i] changes the selection only; afterwards the
    large image shows the image at [i] and the highlighted thumbnail is the
    one at [i] and no other. *)
Theorem click_shows_and_highlights_that_image
    (s : UIState) (p : ProductData) (i : Z) :
  product s = Some p ->
  (1 < length (images p))%nat ->
  0 <= i < Z.of_nat (length (images p)) ->
  let s' := state_of (selectImage i s) in
  s' = setActiveImage i s /\
  (exists src, nth_error (images p) (Z.to_nat i) = Some src /\
               mainImage p (activeImage s') = Picture (Some src) (name p)) /\
  array_get (highlighted s') i = Some true /\
  length (filter (fun b : bool => b) (highlighted s')) = 1%nat.
Proof.
  intros Hp H1 Hi s'.
  assert (Hs : s' = setActiveImage i s).
  { unfold s', selectImage.
    replace (i <? 0) with false by (symmetry; apply Z.ltb_ge; lia).
    rewrite (thumbnails_lookup s p (Z.to_nat i) Hp).
    replace (1 <? Z.of_nat (length (images p))) with true
      by (symmetry; apply Z.ltb_lt; lia).
    replace (Z.to_nat i <? length (images p))%nat with true
      by (symmetry; apply Nat.ltb_lt; lia).
    simpl. rewrite Z2Nat.id by lia. reflexivity. }
  split; [exact Hs|]. rewrite Hs. cbn [activeImage setActiveImage].
  split; [|split].
  - destruct (array_get_in_range (images p) i Hi) as (src & Hg & _).
    exists src. split.
    + unfold array_get in Hg.
      replace (i <? 0) with false in Hg by (symmetry; apply Z.ltb_ge; lia). exact Hg.
    + unfold mainImage.
      replace (0 <? Z.of_nat (length (images p))) with true
        by (symmetry; apply Z.ltb_lt; lia).
      rewrite Hg. reflexivity.
  - unfold highlighted. cbn [product activeImage setActiveImage]. rewrite Hp.
    replace (1 <? Z.of_nat (length (images p))) with true
      by (symmetry; apply Z.ltb_lt; lia).
    apply highlighted_at, Hi.
  - unfold highlighted. cbn [product activeImage setActiveImage]. rewrite Hp.
    replace (1 <? Z.of_nat (length (images p))) with true
      by (symmetry; apply Z.ltb_lt; lia).
    rewrite one_match_in_seq.
    replace (Z.of_nat 0 <=? i) with true by (symmetry; apply Z.leb_le; lia).
    replace (i <? Z.of_nat (0 + length (images p))) with true
      by (symmetry; apply Z.ltb_lt; simpl; lia).
    reflexivity.
Qed.

Lemma click_shows_and_highlights_that_image_witness :
  product shownState = Some redLamp /\
  (1 < length (images redLamp))%nat /\
  0 <= 1 < Z.of_nat (length (images redLamp)) /\
  state_of (selectImage 1 shownState) = setActiveImage 1 shownState /\
  array_get (highlighted (state_of (selectImage 1 shownState))) 1 = Some true.
Proof.
  assert (Hp : product shownState = Some redLamp) by (vm_compute; reflexivity).
  assert (H1 : (1 < length (images redLamp))%nat) by (vm_compute; lia).
  assert (Hi : 0 <= 1 < Z.of_nat (length (images redLamp))) by (vm_compute; split; congruence).
  split; [exact Hp|]. split; [exact H1|]. split; [exact Hi|].
  pose proof (click_shows_and_highlights_that_image shownState redLamp 1 Hp H1 Hi)
    as (Hs & _ & Hh & _).
  split; [exact Hs | exact Hh].
Defined.

(** ** The stars of a review *)

(** Star [i] is filled exactly when [i] lies below the rating rounded up. *)
Lemma star_filled_iff (q : Q) (i : Z) :
  negb (Qle_bool q (inject_Z i)) = (i <? Qceiling q).
Proof.
  destruct (i <? Qceiling q) eqn:E.
  - apply Z.ltb_lt in E. apply negb_true_iff.
    destruct (Qle_bool q (inject_Z i)) eqn:Hb; [|reflexivity].
    apply Qle_bool_iff in Hb. exfalso.
    assert (Hle : (inject_Z i <= inject_Z (Qceiling q - 1))%Q)
      by (rewrite <- Zle_Qle; lia).
    pose proof (Qle_lt_trans _ _ _ Hle (Qceiling_lt q)) as Hlt.
    exact (Qlt_not_le _ _ Hlt Hb).
  - apply Z.ltb_ge in E. apply negb_false_iff. apply Qle_bool_iff.
    apply Qle_trans with (inject_Z (Qceiling q)); [apply Qle_ceiling|].
    rewrite <- Zle_Qle. exact E.
Qed.

(** X6: a review always shows five stars, the filled ones first; their
    number is the rating rounded up to the next integer, but no less than 0
    and no more than 5 (a rating of 4.2 fills five stars, a rating of 0 or
    below fills none). *)
Theorem stars_fill_rating_rounded_up (r : Review.t) :
  let k := Z.to_nat (Z.min 5 (Z.max 0 (Qceiling (Review.rating r)))) in
  length (stars r) = 5%nat /\
  stars r = repeat true k ++ repeat false (5 - k) /\
  length (filter (fun b : bool => b) (stars r)) = k.
Proof.
  intros k. unfold stars. cbn [seq map].
  rewrite !star_filled_iff. subst k.
  set (c := Qceiling (Review.rating r)).
  assert (Hc : c <= 0 \/ c = 1 \/ c = 2 \/ c = 3 \/ c = 4 \/ 5 <= c) by lia.
  destruct Hc as [H|[H|[H|[H|[H|H]]]]].
  - replace (Z.of_nat 0 <? c) with false by (symmetry; apply Z.ltb_ge; simpl; lia).
    replace (Z.of_nat 1 <? c) with false by (symmetry; apply Z.ltb_ge; simpl; lia).
    replace (Z.of_nat 2 <? c) with false by (symmetry; apply Z.ltb_ge; simpl; lia).
    replace (Z.of_nat 3 <? c) with false by (symmetry; apply Z.ltb_ge; simpl; lia).
    replace (Z.of_nat 4 <? c) with false by (symmetry; apply Z.ltb_ge; simpl; lia).
    replace (Z.to_nat (Z.min 5 (Z.max 0 c))) with 0%nat by lia.
    repeat split.
  - rewrite H. repeat split.
  - rewrite H. repeat split.
  - rewrite H. repeat split.
  - rewrite H. repeat split.
  - replace (Z.of_nat 0 <? c) with true by (symmetry; apply Z.ltb_lt; simpl; lia).
    replace (Z.of_nat 1 <? c) with true by (symmetry; apply Z.ltb_lt; simpl; lia).
    replace (Z.of_nat 2 <? c) with true by (symmetry; apply Z.ltb_lt; simpl; lia).
    replace (Z.of_nat 3 <? c) with true by (symmetry; apply Z.ltb_lt; simpl; lia).
    replace (Z.of_nat 4 <? c) with true by (symmetry; apply Z.ltb_lt; simpl; lia).
    replace (Z.to_nat (Z.min 5 (Z.max 0 c))) with 5%nat by lia.
    repeat split.
Qed.

(** ** The copied flag and its resets over whole traces *)

Lemma resets_pending_frame (w w' : World) :
  timers w' = timers w -> now w' = now w -> copied (ui w') = copied (ui w) ->
  resets_pending w -> resets_pending w'.
Proof. unfold resets_pending. intros -> -> ->. exact (fun H => H). Qed.

Lemma all_due (t : Z) (l : list (Z * Callback)) :
  (forall tm, In tm l -> fst tm <= t) ->
  filter (due t) l = l /\ filter (fun tm => negb (due t tm)) l = [].
Proof.
  induction l as [|tm l IH]; intros H; simpl.
  - split; reflexivity.
  - assert (Hd : due t tm = true).
    { unfold due. apply Z.leb_le. apply H. left. reflexivity. }
    rewrite Hd. simpl.
    destruct IH as [-> ->]; [intros x Hx; apply H; right; exact Hx|].
    split; reflexivity.
Qed.

Lemma nothing_due_keeps_queue (t : Z) (l : list (Z * Callback)) :
  filter (due t) l = [] -> filter (fun tm => negb (due t tm)) l = l.
Proof.
  induction l as [|tm l IH]; simpl.
  - reflexivity.
  - destruct (due t tm); simpl; [discriminate|].
    intros H. rewrite (IH H). reflexivity.
Qed.

Lemma resets_pending_step
    (ai : option GoogleGenAI) (JSON_parse : jsstring -> JsError + option ProductData)
    (w : World) (e : Event) :
  resets_pending w -> resets_pending (step ai JSON_parse w e).
Proof.
  intros H. destruct e as [v| |k r|i| |ms].
  - apply (resets_pending_frame w); try reflexivity; exact H.
  - destruct (step_submit_cases ai JSON_parse w) as [->|[[_ ->]|(c & _ & ->)]];
      try exact H; apply (resets_pending_frame w); try reflexivity; exact H.
  - destruct (step_settle_cases ai JSON_parse w k r) as [->|[[d ->]|[e ->]]];
      try exact H; apply (resets_pending_frame w); try reflexivity; exact H.
  - destruct (step_thumbnail_cases ai JSON_parse w i) as [->|(p & _ & _ & _ & ->)];
      try exact H; apply (resets_pending_frame w); try reflexivity; exact H.
  - destruct (step_copy_cases ai JSON_parse w) as [[_ ->]|(p & _ & ->)]; [exact H|].
    destruct H as [Hb _]. unfold resets_pending. cbn [timers now ui copied setCopied].
    split.
    + intros tm Hin. apply in_app_or in Hin as [Hin|[<-|[]]].
      * apply Hb, Hin.
      * simpl. lia.
    + intros _ E. apply app_eq_nil in E as [_ E]. discriminate.
  - destruct H as [Hb Hc]. cbn [step]. unfold resets_pending, advance.
    cbn [timers now ui]. split.
    + intros tm Hin. apply filter_In in Hin as [Hin Hd].
      apply negb_true_iff in Hd. unfold due in Hd. apply Z.leb_gt in Hd.
      specialize (Hb tm Hin). lia.
    + destruct (filter (due (now w + Z.max 0 ms)) (timers w)) as [|tm l] eqn:E.
      * rewrite (nothing_due_keeps_queue _ _ E). exact Hc.
      * intros Ht. rewrite fire_clears in Ht by discriminate. discriminate.
Qed.

Lemma resets_pending_reachable
    (ai : option GoogleGenAI) (JSON_parse : jsstring -> JsError + option ProductData)
    (es : list Event) :
  resets_pending (run ai JSON_parse es initialWorld).
Proof.
  apply (run_invariant ai JSON_parse resets_pending).
  - intros w e. apply resets_pending_step.
  - split.
    + intros tm [].
    + discriminate.
Qed.

(** X7: the copied flag never sticks.  From every state the page can reach,
    once 2000 ms or more pass without another event, the copied flag is off
    and no reset is left pending, however many copies were made before and
    whenever they were made. *)
Theorem copied_flag_off_after_two_seconds
    (ai : option GoogleGenAI) (JSON_parse : jsstring -> JsError + option ProductData)
    (es : list Event) (ms : Z) :
  2000 <= ms ->
  let w := run ai JSON_parse es initialWorld in
  copied (ui (step ai JSON_parse w (Elapse ms))) = false /\
  timers (step ai JSON_parse w (Elapse ms)) = [] /\
  now (step ai JSON_parse w (Elapse ms)) = now w + ms.
Proof.
  intros Hms w.
  destruct (resets_pending_reachable ai JSON_parse es) as [Hb Hc]. fold w in Hb, Hc.
  cbn [step]. unfold advance. cbn [ui timers now].
  assert (Hall : forall tm, In tm (timers w) -> fst tm <= now w + Z.max 0 ms).
  { intros tm Hin. specialize (Hb tm Hin). lia. }
  destruct (all_due _ _ Hall) as [-> ->].
  split; [|split; [reflexivity | lia]].
  destruct (timers w) as [|tm l] eqn:E.
  - simpl. destruct (copied (ui w)); [exfalso; apply Hc; reflexivity | reflexivity].
  - apply fire_clears. discriminate.
Qed.

Lemma copied_flag_off_after_two_seconds_witness :
  2000 <= 2000 /\
  copied (ui (run (Some sampleClient) sampleParse copiedTwice initialWorld)) = true /\
  copied (ui (step (Some sampleClient) sampleParse
                (run (Some sampleClient) sampleParse copiedTwice initialWorld)
                (Elapse 2000))) = false /\
  timers (step (Some sampleClient) sampleParse
            (run (Some sampleClient) sampleParse copiedTwice initialWorld)
            (Elapse 2000)) = [].
Proof.
  assert (Hms : 2000 <= 2000) by lia.
  assert (Hc : copied (ui (run (Some sampleClient) sampleParse copiedTwice initialWorld))
               = true) by (vm_compute; reflexivity).
  split; [exact Hms|]. split; [exact Hc|].
  pose proof (copied_flag_off_after_two_seconds (Some sampleClient) sampleParse
                copiedTwice 2000 Hms) as (H1 & H2 & _).
  split; [exact H1 | exact H2].
Defined.

(** ** The page without the API key *)

(** X8: without the API key nothing is ever extracted, whatever the user
    does and however long the page runs: no request is in flight, [loading]
    is off, no record is held, the selection is 0, the copied flag is off,
    clipboard, timers and console stay empty, and the error message is
    either empty or the fixed configuration message, so the status is Idle
    or Error. *)
Theorem without_key_nothing_is_ever_extracted
    (JSON_parse : jsstring -> JsError + option ProductData) (es : list Event) :
  let w := run None JSON_parse es initialWorld in
  inflight w = [] /\
  loading (ui w) = false /\
  product (ui w) = None /\
  activeImage (ui w) = 0 /\
  copied (ui w) = false /\
  clipboard w = [] /\
  timers w = [] /\
  console w = [] /\
  (error (ui w) = [] \/ error (ui w) = MSG_NO_KEY) /\
  (status (ui w) = Idle \/ status (ui w) = Error).
Proof.
  cbv zeta.
  apply (run_invariant None JSON_parse
           (fun w => inflight w = [] /\ loading (ui w) = false /\
                     product (ui w) = None /\ activeImage (ui w) = 0 /\
                     copied (ui w) = false /\ clipboard w = [] /\ timers w = [] /\
                     console w = [] /\
                     (error (ui w) = [] \/ error (ui w) = MSG_NO_KEY) /\
                     (status (ui w) = Idle \/ status (ui w) = Error))).
  - intros w e (Hi & Hl & Hp & Ha & Hc & Hb & Ht & Ho & He & Hs).
    destruct e as [v| |k r|i| |ms].
    + cbn [step]. unfold dispatch, onChange, update, status in *.
      cbn [effects state_of fst snd fold_left with_ui ui inflight timers clipboard
           console loading error product activeImage copied setUrl].
      repeat split; assumption.
    + destruct (step_submit_cases None JSON_parse w) as [->|[[_ ->]|(c & Hk & _)]].
      * repeat split; assumption.
      * unfold status.
        cbn [with_ui ui inflight timers clipboard console loading error product
             activeImage copied setError].
        rewrite Hl. repeat split; try assumption; right; reflexivity.
      * discriminate.
    + cbn [step]. rewrite Hi. destruct k; repeat split; assumption.
    + destruct (step_thumbnail_cases None JSON_parse w i) as [->|(p & Hq & _)].
      * repeat split; assumption.
      * congruence.
    + destruct (step_copy_cases None JSON_parse w) as [[_ ->]|(p & Hq & _)].
      * repeat split; assumption.
      * congruence.
    + cbn [step]. unfold advance, status in *. rewrite Ht.
      cbn [filter fold_left ui inflight timers clipboard console].
      repeat split; assumption.
  - repeat split; left; reflexivity.
Qed.



(** ** What each event leaves alone *)

(** X10: only typing changes the url; only a click on the copy button writes
    to the clipboard or turns the copied flag on; only a settling call
    writes to the console; the selection changes only by a thumbnail click
    or a settling call; and the record, the error message, the loading flag
    and the requests in flight change only by a submission or a settling
    call. *)
Theorem events_write_only_their_own_cells
    (ai : option GoogleGenAI) (JSON_parse : jsstring -> JsError + option ProductData)
    (w : World) (e : Event) :
  let w' := step ai JSON_parse w e in
  ((forall v, e <> Change v) -> url (ui w') = url (ui w)) /\
  (e <> ClickCopy ->
   clipboard w' = clipboard w /\ (copied (ui w') = true -> copied (ui w) = true)) /\
  ((forall k r, e <> Settle k r) -> console w' = console w) /\
  ((forall k r, e <> Settle k r) -> (forall i, e <> ClickThumbnail i) ->
   activeImage (ui w') = activeImage (ui w)) /\
  ((forall k r, e <> Settle k r) -> e <> Submit ->
   product (ui w') = product (ui w) /\ error (ui w') = error (ui w) /\
   loading (ui w') = loading (ui w) /\ inflight w' = inflight w).
Proof.
  intros w'. subst w'.
  assert (Hfire : forall t,
            copied (fold_left (fun s tm => run_callback (snd tm) s)
                      (filter (due t) (timers w)) (ui w)) = true ->
            copied (ui w) = true).
  { intros t H. destruct (filter (due t) (timers w)) as [|tm l] eqn:E.
    - exact H.
    - rewrite fire_clears in H by discriminate. discriminate. }
  destruct e as [v| |k r|i| |ms].
  - cbn [step]. unfold dispatch, onChange, update.
    cbn [effects state_of fst snd fold_left with_ui ui inflight timers clipboard console].
    split; [intros H; exfalso; exact (H v eq_refl)|].
    repeat split; intros; try reflexivity; assumption.
  - destruct (step_submit_cases ai JSON_parse w) as [->|[[_ ->]|(c & _ & ->)]];
      (split; [intros _; reflexivity|];
       split; [intros _; split; [reflexivity | intros H; exact H]|];
       split; [intros _; reflexivity|];
       split; [intros _ _; reflexivity|];
       intros _ H; exfalso; exact (H eq_refl)).
  - destruct (step_settle_cases ai JSON_parse w k r) as [->|[[d ->]|[e ->]]];
      (split; [intros _; reflexivity|];
       split; [intros _; split; [reflexivity | intros H; exact H]|];
       split; [intros H; exfalso; exact (H k r eq_refl)|];
       split; intros H; exfalso; exact (H k r eq_refl)).
  - destruct (step_thumbnail_cases ai JSON_parse w i) as [->|(p & _ & _ & _ & ->)];
      (split; [intros _; reflexivity|];
       split; [intros _; split; [reflexivity | intros H; exact H]|];
       split; [intros _; reflexivity|];
       split; [intros _ H; exfalso; exact (H i eq_refl)|];
       intros _ _; repeat split).
  - destruct (step_copy_cases ai JSON_parse w) as [[_ ->]|(p & _ & ->)];
      (split; [intros _; reflexivity|];
       split; [intros H; exfalso; exact (H eq_refl)|];
       split; [intros _; reflexivity|];
       split; [intros _ _; reflexivity|];
       intros _ _; repeat split).
  - cbn [step]. unfold advance. cbn [ui clipboard console inflight].
    destruct (fire_frame (filter (due (now w + Z.max 0 ms)) (timers w)) (ui w))
      as (Hu & Hl & He & Hp & Ha).
    split; [intros _; exact Hu|].
    split; [intros _; split; [reflexivity | apply Hfire]|].
    split; [intros _; reflexivity|].
    split; [intros _ _; exact Ha|].
    intros _ _. repeat split; assumption.
Qed.

Lemma events_write_only_their_own_cells_witness :
  url (ui (step (Some sampleClient) sampleParse redWorld Submit)) = url (ui redWorld) /\
  clipboard (step (Some sampleClient) sampleParse redWorld Submit) = clipboard redWorld /\
  product (ui (step (Some sampleClient) sampleParse redWorld ClickCopy))
    = product (ui redWorld).
Proof.
  pose proof (events_write_only_their_own_cells (Some sampleClient) sampleParse
                redWorld Submit) as (Hu & Hc & _).
  pose proof (events_write_only_their_own_cells (Some sampleClient) sampleParse
                redWorld ClickCopy) as (_ & _ & _ & _ & Hp).
  split; [apply Hu; discriminate|].
  split; [apply Hc; discriminate|].
  apply Hp; discriminate.
Defined.

(** ** The request that is sent *)

(** X11: a submission with the key present and a non-blank url issues
    exactly one request; it is addressed to the configured client and to the
    fixed model, and its prompt contains the url exactly as it stands in the
    input, surrounding white space included (only the test of line 35 trims
    it). *)
Theorem request_quotes_url_as_typed (c : GoogleGenAI) (s : UIState) :
  trim (url s) <> [] ->
  exists req,
    effects (handleExtract_sync (Some c) s) = [GenerateContent req] /\
    client req = c /\
    model req = utf16 "gemini-3-flash-preview" /\
    includes (url s) (contents req) = true /\
    exists before after, contents req = before ++ url s ++ after.
Proof.
  intros H. apply truthy_iff in H.
  exists (request c (url s)). rewrite (sync_request c s H).
  split; [reflexivity|]. split; [reflexivity|]. split; [reflexivity|].
  assert (Hin : includes (url s) (contents (request c (url s))) = true).
  { unfold request, prompt. cbn [contents]. apply includes_middle. }
  split; [exact Hin|]. apply includes_spec, Hin.
Qed.

Lemma request_quotes_url_as_typed_witness :
  trim (url paddedState) <> [] /\
  exists req,
    effects (handleExtract_sync (Some sampleClient) paddedState)
      = [GenerateContent req] /\
    includes (url paddedState) (contents req) = true.
Proof.
  assert (H : trim (url paddedState) <> []) by (vm_compute; discriminate).
  split; [exact H|].
  destruct (request_quotes_url_as_typed sampleClient paddedState H)
    as (req & He & _ & _ & Hi & _).
  exists req. split; [exact He | exact Hi].
Defined.

(** ** The API key *)

(** X12: the client exists exactly when [GEMINI_API_KEY] is a non-empty
    string, and it then carries that key into every request.  An empty key
    counts as a missing one: a submission of a non-blank url then gives the
    configuration error and issues nothing, as with the variable undefined. *)
Theorem empty_key_counts_as_missing (env : option jsstring) (s : UIState) :
  trim (url s) <> [] ->
  (ai env = None <-> env = None \/ env = Some []) /\
  (ai env = None ->
   handleExtract_sync (ai env) s = (Normal Returned, setError MSG_NO_KEY s, [])) /\
  (forall k, env = Some k -> k <> [] ->
     effects (handleExtract_sync (ai env) s) =
     [GenerateContent (request (mkGoogleGenAI k) (url s))]).
Proof.
  intros H. apply truthy_iff in H. split; [|split].
  - unfold ai. destruct env as [[|a k]|]; simpl; split; intros H0;
      try reflexivity; try discriminate; auto.
    destruct H0; discriminate.
  - intros ->. apply sync_no_key, H.
  - intros k -> Hk. unfold ai. apply truthy_iff in Hk. rewrite Hk.
    rewrite (sync_request _ s H). reflexivity.
Qed.

Lemma empty_key_counts_as_missing_witness :
  trim (url typedState) <> [] /\
  handleExtract_sync (ai (Some [])) typedState =
  (Normal Returned, setError MSG_NO_KEY typedState, []).
Proof.
  assert (H : trim (url typedState) <> []) by (vm_compute; discriminate).
  split; [exact H|].
  pose proof (empty_key_counts_as_missing (Some []) typedState H) as (_ & Hm & _).
  apply Hm. reflexivity.
Defined.

(** ** The console *)

(** X13: when a request in flight settles, it leaves the list of requests in
    flight; a failure is logged to the console once, with the error that was
    caught, and a success logs nothing.  A settlement for a position at
    which nothing is in flight changes nothing. *)
Theorem failures_are_logged_once
    (ai : option GoogleGenAI) (JSON_parse : jsstring -> JsError + option ProductData)
    (w : World) (k : nat) (r : Settled) :
  (nth_error (inflight w) k = None -> step ai JSON_parse w (Settle k r) = w) /\
  (nth_error (inflight w) k <> None ->
   inflight (step ai JSON_parse w (Settle k r)) = remove_nth k (inflight w) /\
   (forall e, Fails JSON_parse r e ->
      console (step ai JSON_parse w (Settle k r)) = console w ++ [e]) /\
   (forall resp t d, r = Fulfilled resp -> text_truthy resp = Some t ->
      JSON_parse t = inr d ->
      console (step ai JSON_parse w (Settle k r)) = console w)).
Proof.
  split.
  - intros H. cbn [step]. rewrite H. reflexivity.
  - intros H. cbn [step].
    destruct (nth_error (inflight w) k) as [req|]; [clear H | congruence].
    unfold dispatch. cbn [ui]. split; [|split].
    + destruct (resume_cases JSON_parse r (ui w)) as [[d ->]|[e ->]]; reflexivity.
    + intros e He. rewrite (resume_failure JSON_parse r e (ui w) He). reflexivity.
    + intros resp t d -> Ht Hp.
      rewrite (resume_success JSON_parse resp t d (ui w) Ht Hp). reflexivity.
Qed.

Lemma failures_are_logged_once_witness :
  nth_error (inflight twoInFlight) 1 <> None /\
  Fails sampleParse htmlText (mkJsError (utf16 "Unexpected token")) /\
  console (step (Some sampleClient) sampleParse twoInFlight (Settle 1 htmlText))
    = console twoInFlight ++ [mkJsError (utf16 "Unexpected token")] /\
  inflight (step (Some sampleClient) sampleParse twoInFlight (Settle 1 htmlText))
    = remove_nth 1 (inflight twoInFlight).
Proof.
  assert (Hk : nth_error (inflight twoInFlight) 1 <> None) by (vm_compute; discriminate).
  assert (Hf : Fails sampleParse htmlText (mkJsError (utf16 "Unexpected token")))
    by (apply fails_unparsable with (t := utf16 "<html>"); vm_compute; reflexivity).
  split; [exact Hk|]. split; [exact Hf|].
  pose proof (failures_are_logged_once (Some sampleClient) sampleParse twoInFlight 1
                htmlText) as [_ H].
  destruct (H Hk) as (Hi & Hc & _).
  split; [exact (Hc _ Hf) | exact Hi].
Defined.

(** ** The clipboard *)



(** X15: whatever the user does, every text that was ever written to the
    clipboard is the summary of a record, so it starts with the label of the
    name and contains that record's name and price. *)
Theorem clipboard_holds_only_summaries
    (ai : option GoogleGenAI) (JSON_parse : jsstring -> JsError + option ProductData)
    (es : list Event) :
  Forall (fun t => exists p, t = summary p /\
                             startsWith (utf16 "Produto: ") t = true /\
                             includes (name p) t = true /\
                             includes (price p) t = true)
         (clipboard (run ai JSON_parse es initialWorld)).
Proof.
  apply (run_invariant ai JSON_parse
           (fun w => Forall (fun t => exists p, t = summary p /\
                                startsWith (utf16 "Produto: ") t = true /\
                                includes (name p) t = true /\
                                includes (price p) t = true) (clipboard w))).
  - intros w e H. destruct e as [v| |k r|i| |ms].
    + exact H.
    + destruct (step_submit_cases ai JSON_parse w) as [->|[[_ ->]|(c & _ & ->)]];
        exact H.
    + destruct (step_settle_cases ai JSON_parse w k r) as [->|[[d ->]|[e ->]]];
        exact H.
    + destruct (step_thumbnail_cases ai JSON_parse w i) as [->|(p & _ & _ & _ & ->)];
        exact H.
    + destruct (step_copy_cases ai JSON_parse w) as [[_ ->]|(p & _ & ->)]; [exact H|].
      cbn [clipboard]. apply Forall_app. split; [exact H|].
      constructor; [|constructor]. exists p.
      split; [reflexivity|]. split; [apply startsWith_app|].
      split; [apply summary_includes_name | apply summary_includes_price].
    + exact H.
  - constructor.
Qed.
